(** * SOL_Formatter: filename classification, content extraction and
      validation of structured output

    A shallow embedding of [sol_formatter/parser.py] (class [SOLParser]),
    of [sol_formatter/openai_extractor.py] (class [OpenAIExtractor]), of the
    loop and the CSV of [batch_process.py] and of [extract_docx.py].

    Conventions of the embedding.
    - A Python [str] is a [string]; a character is its code point, restricted
      to the range 0..255 that [ascii] offers.  Within that range [\d] is
      [0-9], [\s] and [str.strip] use Python's [str.isspace], and [.] is every
      character but the line feed.
    - Exceptions are values of [exn]; a computation that may raise has type
      [result A].
    - Code that reads or writes (files, the completion service, [print])
      takes and gives back a state of the outside world, of which nothing is
      assumed.
    - [re.match] is a backtracking matcher written in continuation-passing
      style: alternatives are tried in the priority order of the quantifier
      (greedy: longest first, lazy: shortest first) and the first complete
      match wins, as in CPython's engine. *)

From Stdlib Require Import Bool Arith ZArith Lia List Ascii String.
From Stdlib Require Import Numbers.DecimalString Numbers.DecimalPos.
Import ListNotations.
Open Scope string_scope.

(* ================================================================== *)
(** * Python primitives *)

Module Py.

Inductive exn : Type :=
| AssertionError
| KeyError
| TypeError
| ValueError.

Inductive result (A : Type) : Type :=
| Ok (a : A)
| Raise (e : exn).
Arguments Ok {A} a.
Arguments Raise {A} e.

Definition bind {A B} (m : result A) (f : A -> result B) : result B :=
  match m with
  | Ok a => f a
  | Raise e => Raise e
  end.

Definition code (a : ascii) : N := N_of_ascii a.

Definition in_range (lo hi : N) (a : ascii) : bool :=
  (lo <=? code a)%N && (code a <=? hi)%N.

(** [0-9] *)
Definition is_digit : ascii -> bool := in_range 48 57.
(** [A-Z] *)
Definition is_upper : ascii -> bool := in_range 65 90.
(** [a-z] *)
Definition is_lower : ascii -> bool := in_range 97 122.

(** [str.isspace] on one character: TAB..CR, FS..US, SPACE, NEL, NBSP. *)
Definition is_space (a : ascii) : bool :=
  in_range 9 13 a || in_range 28 32 a
  || (code a =? 133)%N || (code a =? 160)%N.

Definition is_newline (a : ascii) : bool := (code a =? 10)%N.

(** Truth value of a [str]: non-empty. *)
Definition truthy (s : string) : bool :=
  match s with
  | EmptyString => false
  | String _ _ => true
  end.

Fixpoint lstrip (s : string) : string :=
  match s with
  | EmptyString => EmptyString
  | String a s' => if is_space a then lstrip s' else s
  end.

Fixpoint rstrip (s : string) : string :=
  match s with
  | EmptyString => EmptyString
  | String a s' =>
      match rstrip s' with
      | EmptyString => if is_space a then EmptyString else String a EmptyString
      | t => String a t
      end
  end.

(** [s.strip()] *)
Definition strip (s : string) : string := rstrip (lstrip s).

(** [any(xs)] for a list of strings. *)
Definition any (xs : list string) : bool := existsb truthy xs.

Fixpoint all_chars (p : ascii -> bool) (s : string) : bool :=
  match s with
  | EmptyString => true
  | String a s' => p a && all_chars p s'
  end.

Fixpoint take (n : nat) (s : string) : string :=
  match n, s with
  | S n', String a s' => String a (take n' s')
  | _, _ => EmptyString
  end.

Definition digit_value (a : ascii) : Z := Z.of_N (code a) - 48.

(** Digits of an integer literal, with single underscores allowed between
    digits; [seen] says that the previous character was a digit. *)
Fixpoint int_digits (acc : Z) (seen : bool) (s : string) : option Z :=
  match s with
  | EmptyString => if seen then Some acc else None
  | String a s' =>
      if is_digit a then int_digits (10 * acc + digit_value a) true s'
      else if (Ascii.eqb a "_" && seen)%bool then int_digits acc false s'
      else None
  end.

(** [int(s)] for a [str] in base ten: surrounding whitespace, an optional
    sign, then digits.  (The interpreter's configurable cap on the number
    of digits is not part of the program and is not modelled.  At the ends
    of an ASCII [str] the interpreter skips space, tab, line feed, vertical
    tab, form feed and carriage return only, and rejects the separators 28
    to 31, which [strip] removes here; the program calls [int] on runs of
    digits, where the two agree.) *)
Definition int (s : string) : result Z :=
  let body (sign : Z) (t : string) :=
    match int_digits 0 false t with
    | Some v => Ok (sign * v)%Z
    | None => Raise ValueError
    end in
  match strip s with
  | String "-" t => body (-1)%Z t
  | String "+" t => body 1%Z t
  | t => body 1%Z t
  end.

(** [str(n)] for an [int], also what an f-string inserts. *)
Definition str_of_int (n : Z) : string :=
  NilZero.string_of_int (Z.to_int n).

(** JSON-shaped values, as [json.loads] produces them. *)
#[warnings="-register-all"]
Inductive value : Type :=
| VNone
| VBool (b : bool)
| VInt (z : Z)
| VFloat (bits : Z)
| VStr (s : string)
| VList (l : list value)
| VDict (d : list (string * value)).

Fixpoint lookup {V} (k : string) (d : list (string * V)) : option V :=
  match d with
  | [] => None
  | (k', v) :: d' => if String.eqb k k' then Some v else lookup k d'
  end.

Definition has_key {V} (k : string) (d : list (string * V)) : bool :=
  existsb (fun kv => String.eqb k (fst kv)) d.

Fixpoint starts_with (p s : string) : bool :=
  match p, s with
  | EmptyString, _ => true
  | String a p', String b s' => Ascii.eqb a b && starts_with p' s'
  | String _ _, EmptyString => false
  end.

(** [p in s] for two strings: [p] occurs in [s]. *)
Fixpoint occurs (p s : string) : bool :=
  starts_with p s ||
  match s with
  | EmptyString => false
  | String _ s' => occurs p s'
  end.

Definition is_str (k : string) (v : value) : bool :=
  match v with
  | VStr s => String.eqb k s
  | _ => false
  end.

(** [k in v] for a string [k]. *)
Definition contains (k : string) (v : value) : result bool :=
  match v with
  | VDict d => Ok (has_key k d)
  | VList l => Ok (existsb (is_str k) l)
  | VStr s => Ok (occurs k s)
  | VNone | VBool _ | VInt _ | VFloat _ => Raise TypeError
  end.

(** [v[k]] for a string [k]. *)
Definition getitem (v : value) (k : string) : result value :=
  match v with
  | VDict d =>
      match lookup k d with
      | Some x => Ok x
      | None => Raise KeyError
      end
  | _ => Raise TypeError
  end.

(** [isinstance(v, list)] *)
Definition is_list (v : value) : bool :=
  match v with
  | VList _ => true
  | _ => false
  end.

Fixpoint chars (s : string) : list value :=
  match s with
  | EmptyString => []
  | String a s' => VStr (String a EmptyString) :: chars s'
  end.

(** The items a [for] loop over [v] visits. *)
Definition iter (v : value) : result (list value) :=
  match v with
  | VList l => Ok l
  | VDict d => Ok (map (fun kv => VStr (fst kv)) d)
  | VStr s => Ok (chars s)
  | VNone | VBool _ | VInt _ | VFloat _ => Raise TypeError
  end.

(** [assert b], assertions being enabled. *)
Definition assert (b : bool) : result unit :=
  if b then Ok tt else Raise AssertionError.

(** A [for] loop whose body only checks. *)
Fixpoint for_each {A} (body : A -> result unit) (l : list A) : result unit :=
  match l with
  | [] => Ok tt
  | x :: l' => bind (body x) (fun _ => for_each body l')
  end.

End Py.

Import Py.

Notation "x <- m ;; k" := (bind m (fun x => k))
  (at level 61, m at next level, right associativity).
Notation "m ;;; k" := (bind m (fun _ => k))
  (at level 61, right associativity).

(* ================================================================== *)
(** * The regular expressions of the program and [re.match] *)

Module Re.

(** What one pattern position accepts. *)
Inductive cset : Type :=
| Digit            (** [\d] *)
| Space            (** [\s] *)
| Dot              (** [.] *)
| Upper            (** [[A-Z]] *)
| Lower            (** [[a-z]] *)
| Only (c : ascii) (** a literal character *).

Definition mem (c : cset) (a : ascii) : bool :=
  match c with
  | Digit => is_digit a
  | Space => is_space a
  | Dot => negb (is_newline a)
  | Upper => is_upper a
  | Lower => is_lower a
  | Only b => Ascii.eqb a b
  end.

(** The patterns of the program quantify single positions only and never
    nest groups. *)
Inductive regex : Type :=
| Eps
| Bol                                       (** [^] *)
| One (c : cset)
| Rep (greedy : bool) (lo : nat) (hi : option nat) (c : cset)
| Cat (r1 r2 : regex)
| Grp (r : regex)                           (** [( ... )] *).

Definition room (hi : option nat) : bool :=
  match hi with
  | Some 0 => false
  | _ => true
  end.

(** [c{lo,hi}] (greedy) or [c{lo,hi}?] (lazy) from position [pos] of the
    subject, [s] being what is left of it. *)
Fixpoint rep {A} (g : bool) (c : cset) (lo : nat) (hi : option nat)
    (pos : nat) (s : string) (k : nat -> string -> option A) : option A :=
  let stop (_ : unit) := if (lo =? 0)%nat then k pos s else None in
  let more (_ : unit) :=
    match s with
    | String a s' =>
        if mem c a && room hi
        then rep g c (pred lo) (option_map pred hi) (S pos) s' k
        else None
    | EmptyString => None
    end in
  if g
  then match more tt with Some x => Some x | None => stop tt end
  else match stop tt with Some x => Some x | None => more tt end.

Fixpoint run {A} (r : regex) (pos : nat) (s : string) (caps : list string)
    (k : nat -> string -> list string -> option A) : option A :=
  match r with
  | Eps => k pos s caps
  | Bol => if (pos =? 0)%nat then k pos s caps else None
  | One c =>
      match s with
      | String a s' => if mem c a then k (S pos) s' caps else None
      | EmptyString => None
      end
  | Rep g lo hi c => rep g c lo hi pos s (fun pos' s' => k pos' s' caps)
  | Cat r1 r2 =>
      run r1 pos s caps (fun pos1 s1 caps1 => run r2 pos1 s1 caps1 k)
  | Grp r1 =>
      run r1 pos s caps
        (fun pos' s' caps' =>
           k pos' s' (caps' ++ [take (pos' - pos) s])%list)
  end.

(** [re.match(r, s)], giving [match.groups()] on success. *)
Definition re_match (r : regex) (s : string) : option (list string) :=
  run r 0 s [] (fun _ _ caps => Some caps).

(** [re.fullmatch(r, s)]: the whole subject has to be consumed. *)
Definition re_fullmatch (r : regex) (s : string) : option (list string) :=
  run r 0 s []
    (fun _ s' caps => match s' with EmptyString => Some caps | _ => None end).

(** Pattern syntax. *)
Fixpoint lit (s : string) : regex :=
  match s with
  | EmptyString => Eps
  | String a s' => Cat (One (Only a)) (lit s')
  end.

Fixpoint seq (rs : list regex) : regex :=
  match rs with
  | [] => Eps
  | r :: rs' => Cat r (seq rs')
  end.

Definition plus (c : cset) : regex := Rep true 1 None c.
Definition plus_lazy (c : cset) : regex := Rep false 1 None c.
Definition exactly (n : nat) (c : cset) : regex := Rep true n (Some n) c.
Definition between (lo hi : nat) (c : cset) : regex := Rep true lo (Some hi) c.
Definition opt (c : cset) : regex := Rep true 0 (Some 1) c.

(** ** What a pattern accepts, independently of the search order *)

Definition within (hi : option nat) (n : nat) : Prop :=
  match hi with
  | Some h => n <= h
  | None => True
  end.

(** [matches r pos w caps caps']: [r] accepts the word [w] found at
    position [pos], extending the captures [caps] to [caps']. *)
Fixpoint matches (r : regex) (pos : nat) (w : string)
    (caps caps' : list string) : Prop :=
  match r with
  | Eps => w = "" /\ caps' = caps
  | Bol => pos = 0 /\ w = "" /\ caps' = caps
  | One c => (exists a, w = String a "" /\ mem c a = true) /\ caps' = caps
  | Rep _ lo hi c =>
      all_chars (mem c) w = true /\ lo <= String.length w
      /\ within hi (String.length w) /\ caps' = caps
  | Cat r1 r2 =>
      exists w1 w2 caps1,
        w = w1 ++ w2 /\ matches r1 pos w1 caps caps1
        /\ matches r2 (pos + String.length w1) w2 caps1 caps'
  | Grp r1 =>
      exists caps1, matches r1 pos w caps caps1 /\ caps' = (caps1 ++ [w])%list
  end.

(** Some prefix of [s] is accepted by [r]. *)
Definition prefix_accepted (r : regex) (s : string) : Prop :=
  exists w rest caps, s = w ++ rest /\ matches r 0 w [] caps.

(** All of [s] is accepted by [r]. *)
Definition accepted (r : regex) (s : string) : Prop :=
  exists caps, matches r 0 s [] caps.

End Re.

Import Re.

(* ================================================================== *)
(** * [SOLParser] (parser.py) *)

Module SOLParser.

(** [(\d+)-(.+?)-(\d{4})-Approved-Math-SOL\.docx] *)
Definition sol_pattern : regex :=
  seq [Grp (plus Digit); lit "-"; Grp (plus_lazy Dot); lit "-";
       Grp (exactly 4 Digit); lit "-Approved-Math-SOL.docx"].

(** [(\d+)\.\s+Grade\s+(\d+)\s+Mathematics\s+Instructional\s+Guide\.docx] *)
Definition guide_pattern : regex :=
  seq [Grp (plus Digit); lit "."; plus Space; lit "Grade"; plus Space;
       Grp (plus Digit); plus Space; lit "Mathematics"; plus Space;
       lit "Instructional"; plus Space; lit "Guide.docx"].

(** [(\d+)-(.+?)-Understanding\s+the\s+Standards\.docx] *)
Definition understanding_pattern : regex :=
  seq [Grp (plus Digit); lit "-"; Grp (plus_lazy Dot); lit "-Understanding";
       plus Space; lit "the"; plus Space; lit "Standards.docx"].

(** [(\d+)\.\s+(.+?)\s+Mathematics\s+Instructional\s+Guide\.docx] *)
Definition subject_guide_pattern : regex :=
  seq [Grp (plus Digit); lit "."; plus Space; Grp (plus_lazy Dot);
       plus Space; lit "Mathematics"; plus Space; lit "Instructional";
       plus Space; lit "Guide.docx"].

Definition subject_map : list (Z * string) :=
  [(9, "Algebra 1"); (10, "Geometry"); (11, "AFDA"); (12, "Algebra 2");
   (13, "Trigonometry"); (14, "Computational Mathematics");
   (15, "Probability & Statistics"); (16, "Discrete Mathematics");
   (17, "Mathematical Analysis"); (18, "Data Science")]%Z.

(** [d.get(k, default)] *)
Fixpoint get (k : Z) (d : list (Z * string)) (default : string) : string :=
  match d with
  | [] => default
  | (k', v) :: d' => if (k =? k')%Z then v else get k d' default
  end.

Definition _get_grade_level (num subject : string) : result string :=
  num <- int num ;;
  if ((1 <=? num)%Z && (num <=? 8)%Z)%bool
  then Ok ("Grade " ++ str_of_int num)
  else Ok (get num subject_map subject).

(** The dictionaries [_parse_filename] returns, keys in insertion order. *)
Definition metadata : Type := list (string * string).

Definition _parse_filename (filename : string) : result metadata :=
  match re_match sol_pattern filename with
  | Some groups =>
      match groups with
      | [num; subject; year] =>
          grade_level <- _get_grade_level num subject ;;
          Ok [("type", "Approved SOL Standards");
              ("number", num);
              ("subject", subject);
              ("year", year);
              ("grade_level", grade_level)]
      | _ => Raise ValueError
      end
  | None =>
  match re_match guide_pattern filename with
  | Some groups =>
      match groups with
      | [num; grade] =>
          Ok [("type", "Instructional Guide");
              ("number", num);
              ("grade", grade);
              ("subject", "Mathematics");
              ("grade_level", "Grade " ++ grade)]
      | _ => Raise ValueError
      end
  | None =>
  match re_match understanding_pattern filename with
  | Some groups =>
      match groups with
      | [num; subject] =>
          grade_level <- _get_grade_level num subject ;;
          Ok [("type", "Understanding the Standards");
              ("number", num);
              ("subject", subject);
              ("grade_level", grade_level)]
      | _ => Raise ValueError
      end
  | None =>
  match re_match subject_guide_pattern filename with
  | Some groups =>
      match groups with
      | [num; subject] =>
          grade_level <- _get_grade_level num subject ;;
          Ok [("type", "Instructional Guide");
              ("number", num);
              ("subject", subject);
              ("grade_level", grade_level)]
      | _ => Raise ValueError
      end
  | None =>
      Ok [("type", "Unknown");
          ("filename", filename)]
  end end end end.

(** [^[A-Z]{1,4}\.\d+] and [^\d+\.\d+[a-z]?] *)
Definition standard_patterns : list regex :=
  [seq [Bol; between 1 4 Upper; lit "."; plus Digit];
   seq [Bol; plus Digit; lit "."; plus Digit; opt Lower]].

Fixpoint first_match (patterns : list regex) (text : string) : bool :=
  match patterns with
  | [] => false
  | pattern :: rest =>
      match re_match pattern text with
      | Some _ => true
      | None => first_match rest text
      end
  end.

Definition _is_standard (text : string) : bool :=
  first_match standard_patterns text.

(** ** The document, as far as the parser reads it *)

Record Style : Type := { name : option string }.
Record Paragraph : Type := { para_text : string; para_style : option Style }.
Record Cell : Type := { cell_text : string }.
Record Row : Type := { cells : list Cell }.
Record Table : Type := { rows : list Row }.
Record Document : Type :=
  { doc_paragraphs : list Paragraph; doc_tables : list Table }.

(** One entry of ["paragraphs"]. *)
Record Para : Type := { text : string; style : option string }.

(** The dictionary [_extract_content] returns. *)
Record Content : Type :=
  { paragraphs : list Para;
    tables : list (list (list string));
    identified_standards : list string;
    total_paragraphs : nat;
    total_tables : nat }.

(** Body of the loop over [doc.paragraphs]; the state is
    [(paragraphs, standards)]. *)
Definition para_step (st : list Para * list string) (para : Paragraph)
    : list Para * list string :=
  let '(paragraphs, standards) := st in
  let text := strip (para_text para) in
  if truthy text then
    let paragraphs :=
      (paragraphs ++
         [{| text := text;
             style := match para_style para with
                      | Some st => name st
                      | None => None
                      end |}])%list in
    if _is_standard text
    then (paragraphs, (standards ++ [text])%list)
    else (paragraphs, standards)
  else (paragraphs, standards).

(** Body of the loop over [table.rows]; the state is [table_data]. *)
Definition row_step (table_data : list (list string)) (row : Row)
    : list (list string) :=
  let row_data := map (fun cell => strip (cell_text cell)) (cells row) in
  if any row_data then (table_data ++ [row_data])%list else table_data.

(** Body of the loop over [doc.tables]; the state is [tables]. *)
Definition table_step (tables : list (list (list string))) (table : Table)
    : list (list (list string)) :=
  let table_data := fold_left row_step (rows table) [] in
  match table_data with
  | [] => tables
  | _ :: _ => (tables ++ [table_data])%list
  end.

Definition _extract_content (doc : Document) : Content :=
  let '(paragraphs, standards) :=
    fold_left para_step (doc_paragraphs doc) ([], []) in
  let tables := fold_left table_step (doc_tables doc) [] in
  {| paragraphs := paragraphs;
     tables := tables;
     identified_standards := standards;
     total_paragraphs := List.length paragraphs;
     total_tables := List.length tables |}.

End SOLParser.

(* ================================================================== *)
(** * [OpenAIExtractor.validate_output] (openai_extractor.py) *)

Module OpenAIExtractor.

(** [assert k in v] *)
Definition assert_in (k : string) (v : value) : result unit :=
  b <- contains k v ;; assert b.

(** [assert isinstance(v[k], list)] *)
Definition assert_list_at (v : value) (k : string) : result unit :=
  x <- getitem v k ;; assert (is_list x).

Definition check_standard (standard : value) : result unit :=
  assert_in "standard_id" standard ;;;
  assert_in "standard_statement" standard ;;;
  assert_in "knowledge_and_skills" standard.

Definition check_strand (strand : value) : result unit :=
  assert_in "strand_code" strand ;;;
  assert_in "strand_name" strand ;;;
  assert_in "standards" strand ;;;
  assert_list_at strand "standards" ;;;
  standards <- getitem strand "standards" ;;
  standards <- iter standards ;;
  for_each check_standard standards.

(** The body of the [try]. *)
Definition checks (data : value) : result unit :=
  assert_in "document_metadata" data ;;;
  assert_in "strands" data ;;;
  assert_list_at data "strands" ;;;
  strands <- getitem data "strands" ;;
  strands <- iter strands ;;
  for_each check_strand strands.

(** [except (AssertionError, KeyError, TypeError)] gives [False]; any other
    exception would propagate. *)
Definition validate_output (data : value) : result bool :=
  match checks data with
  | Ok _ => Ok true
  | Raise AssertionError | Raise KeyError | Raise TypeError => Ok false
  | Raise e => Raise e
  end.

End OpenAIExtractor.

Import SOLParser OpenAIExtractor.

(* ================================================================== *)
(** * Vocabulary of the statements *)

(** [s] starts with a character of the class [c]. *)
Definition starts_in (c : cset) (s : string) : bool :=
  match s with
  | String a _ => mem c a
  | EmptyString => false
  end.

(** A non-empty run of decimal digits. *)
Definition digits (s : string) : Prop :=
  s <> "" /\ all_chars is_digit s = true.

(** The value of a decimal numeral read after [acc]. *)
Fixpoint uint_value (acc : Z) (u : Decimal.uint) : Z :=
  match u with
  | Decimal.Nil => acc
  | Decimal.D0 u' => uint_value (10 * acc + 0) u'
  | Decimal.D1 u' => uint_value (10 * acc + 1) u'
  | Decimal.D2 u' => uint_value (10 * acc + 2) u'
  | Decimal.D3 u' => uint_value (10 * acc + 3) u'
  | Decimal.D4 u' => uint_value (10 * acc + 4) u'
  | Decimal.D5 u' => uint_value (10 * acc + 5) u'
  | Decimal.D6 u' => uint_value (10 * acc + 6) u'
  | Decimal.D7 u' => uint_value (10 * acc + 7) u'
  | Decimal.D8 u' => uint_value (10 * acc + 8) u'
  | Decimal.D9 u' => uint_value (10 * acc + 9) u'
  end.

(** The filenames ["N. Grade M Mathematics Instructional Guide.docx"]. *)
Definition grade_guide_name (N M : string) : string :=
  N ++ ". Grade " ++ M ++ " Mathematics Instructional Guide.docx".

(** No filename pattern accepts a prefix of [filename]. *)
Definition no_pattern_accepts_prefix (filename : string) : Prop :=
  ~ prefix_accepted sol_pattern filename
  /\ ~ prefix_accepted guide_pattern filename
  /\ ~ prefix_accepted understanding_pattern filename
  /\ ~ prefix_accepted subject_guide_pattern filename.

(** Some filename pattern accepts [filename] as a whole. *)
Definition some_pattern_accepts_exactly (filename : string) : Prop :=
  accepted sol_pattern filename
  \/ accepted guide_pattern filename
  \/ accepted understanding_pattern filename
  \/ accepted subject_guide_pattern filename.

(** A filename that continues after the text a pattern describes. *)
Definition backup_name : string := "1-Algebra-2023-Approved-Math-SOL.docx.bak".

(** The two entries of [standard_patterns]. *)
Definition letter_pattern : regex :=
  seq [Bol; between 1 4 Upper; lit "."; plus Digit].
Definition number_pattern : regex :=
  seq [Bol; plus Digit; lit "."; plus Digit; opt Lower].

(** One to four capitals, a dot, digits; anything may follow. *)
Definition letter_code (text : string) : Prop :=
  exists letters number rest,
    text = letters ++ "." ++ number ++ rest
    /\ 1 <= String.length letters <= 4
    /\ all_chars is_upper letters = true
    /\ digits number.

Definition optional_lower (s : string) : Prop :=
  s = "" \/ exists a, s = String a "" /\ is_lower a = true.

(** Digits, a dot, digits, possibly one small letter; anything may follow. *)
Definition dotted_number (text : string) : Prop :=
  exists major minor letter rest,
    text = major ++ "." ++ minor ++ letter ++ rest
    /\ digits major /\ digits minor /\ optional_lower letter.

(** A paragraph whose trimmed text is not empty, and its entry. *)
Definition retained (para : Paragraph) : bool :=
  truthy (strip (para_text para)).

Definition entry (para : Paragraph) : Para :=
  {| text := strip (para_text para);
     style := match para_style para with
              | Some st => name st
              | None => None
              end |}.

(** A row with every cell trimmed; a table with its blank rows left out. *)
Definition trimmed_row (row : Row) : list string :=
  map (fun cell => strip (cell_text cell)) (cells row).

Definition trimmed_table (table : Table) : list (list string) :=
  filter any (map trimmed_row (rows table)).

Definition has_rows (t : list (list string)) : bool :=
  match t with
  | [] => false
  | _ :: _ => true
  end.

(** What one table adds to ["tables"]. *)
Definition contribution (table : Table) : list (list (list string)) :=
  if has_rows (trimmed_table table) then [trimmed_table table] else [].

(** [v] is an object that has every key of [keys]. *)
Definition object_with (keys : list string) (v : value) : bool :=
  match v with
  | VDict d => forallb (fun k => has_key k d) keys
  | _ => false
  end.

(** The list stored under [k] in the object [v]. *)
Definition list_at (k : string) (v : value) : option (list value) :=
  match v with
  | VDict d =>
      match lookup k d with
      | Some (VList l) => Some l
      | _ => None
      end
  | _ => None
  end.

(** [k in v] evaluates to [True]. *)
Definition passes (k : string) (v : value) : bool :=
  match contains k v with
  | Ok b => b
  | Raise _ => false
  end.

(** What the three levels of checks let through. *)
Definition standard_passes (standard : value) : bool :=
  passes "standard_id" standard && passes "standard_statement" standard
  && passes "knowledge_and_skills" standard.

Definition strand_passes (strand : value) : bool :=
  object_with ["strand_code"; "strand_name"; "standards"] strand
  && match list_at "standards" strand with
     | Some standards => forallb standard_passes standards
     | None => false
     end.

Definition document_passes (data : value) : bool :=
  object_with ["document_metadata"; "strands"] data
  && match list_at "strands" data with
     | Some strands => forallb strand_passes strands
     | None => false
     end.

(** The exceptions the [except] clause of [validate_output] names. *)
Definition caught (e : exn) : bool :=
  match e with
  | AssertionError | KeyError | TypeError => true
  | ValueError => false
  end.

(** [m] ends normally exactly when [b] holds and otherwise raises an
    exception that [validate_output] catches. *)
Definition decides (m : result unit) (b : bool) : Prop :=
  match m with
  | Ok _ => b = true
  | Raise e => b = false /\ caught e = true
  end.

Definition standard_keys : list string :=
  ["standard_id"; "standard_statement"; "knowledge_and_skills"].

(** The required keys are present at every checked level: the document,
    every strand and every standard is an object with its keys, and
    ["strands"] and ["standards"] are lists.  No value stored under a key of
    a standard is looked at. *)
Definition strand_keys_present (strand : value) : bool :=
  object_with ["strand_code"; "strand_name"; "standards"] strand
  && match list_at "standards" strand with
     | Some standards => forallb (object_with standard_keys) standards
     | None => false
     end.

Definition keys_present (data : value) : bool :=
  object_with ["document_metadata"; "strands"] data
  && match list_at "strands" data with
     | Some strands => forallb strand_keys_present strands
     | None => false
     end.

(** [d] with [f] applied to what is stored under [k]. *)
Definition update (k : string) (f : value -> value)
    (d : list (string * value)) : list (string * value) :=
  map (fun kv => if String.eqb k (fst kv) then (fst kv, f (snd kv)) else kv) d.

Definition on_key (k : string) (f : value -> value) (v : value) : value :=
  match v with
  | VDict d => VDict (update k f d)
  | _ => v
  end.

Definition on_items (f : value -> value) (v : value) : value :=
  match v with
  | VList l => VList (map f l)
  | _ => v
  end.

(** [data] with [f] applied to the ["knowledge_and_skills"] of every
    standard. *)
Definition replace_objectives (f : value -> value) (data : value) : value :=
  on_key "strands"
    (on_items (on_key "standards"
                 (on_items (on_key "knowledge_and_skills" f)))) data.



(** Sample documents. *)
Definition document_of (strands : list value) : value :=
  VDict [("document_metadata", VDict []); ("strands", VList strands)].

Definition strand_of (standards : list value) : value :=
  VDict [("strand_code", VStr "NS"); ("strand_name", VStr "X");
         ("standards", VList standards)].

Definition standard_of (knowledge_and_skills : value) : value :=
  VDict [("standard_id", VStr "1.NS.1");
         ("standard_statement", VStr "Count forward to 120");
         ("knowledge_and_skills", knowledge_and_skills)].

(** A strand without standards, and the same without its code. *)
Definition document_with_empty_strand : value := document_of [strand_of []].

Definition document_without_strand_code : value :=
  document_of [VDict [("strand_name", VStr "X"); ("standards", VList [])]].

(** A standard that is a sentence, not an object. *)
Definition document_with_text_standard : value :=
  document_of
    [strand_of [VStr "standard_id standard_statement knowledge_and_skills"]].


(** Standards whose ["knowledge_and_skills"] is a string, a number, null. *)
Definition document_with_odd_objectives : value :=
  document_of
    [strand_of [standard_of (VStr "count"); standard_of (VInt 3);
                standard_of VNone]].

(** A small document: a standard written twice, a blank paragraph and a
    heading; a table with a blank row and a table that is blank. *)
Definition heading : Style := {| name := Some "Heading 1" |}.

Definition sample_document : Document :=
  {| doc_paragraphs :=
       [{| para_text := "  1.1 Count to ten "; para_style := None |};
        {| para_text := "   "; para_style := Some heading |};
        {| para_text := "Number Sense"; para_style := Some heading |};
        {| para_text := "1.1 Count to ten"; para_style := None |}];
     doc_tables :=
       [{| rows := [{| cells := [{| cell_text := " G.5 " |};
                                 {| cell_text := "" |}] |};
                    {| cells := [{| cell_text := " " |};
                                 {| cell_text := "  " |}] |}] |};
        {| rows := [{| cells := [{| cell_text := " " |}] |}] |}] |}.

(* ================================================================== *)
(** * More of Python: text building *)

Module PyText.

(** The line feed. *)
Definition nl : string := String "010" EmptyString.

(** [sep.join(parts)] *)
Fixpoint join (sep : string) (parts : list string) : string :=
  match parts with
  | [] => EmptyString
  | p :: rest =>
      match rest with
      | [] => p
      | _ :: _ => p ++ sep ++ join sep rest
      end
  end.

(** [k in s] where [s] is a [str] or [None]. *)
Definition contains_opt (k : string) (s : option string) : result bool :=
  match s with
  | Some s => Ok (occurs k s)
  | None => Raise TypeError
  end.

(** What an f-string inserts for a [str] or [None]. *)
Definition format_opt (s : option string) : string :=
  match s with
  | Some s => s
  | None => "None"
  end.

(** What an f-string inserts for a non-negative [int]. *)
Definition format_nat (n : nat) : string := str_of_int (Z.of_nat n).

(** A [for] loop that updates its state and may raise. *)
Fixpoint for_fold {A S} (body : S -> A -> result S) (l : list A) (s : S)
    : result S :=
  match l with
  | [] => Ok s
  | x :: l' => bind (body s x) (for_fold body l')
  end.

(** [enumerate(l, start)] *)
Fixpoint enumerate {A} (start : nat) (l : list A) : list (nat * A) :=
  match l with
  | [] => []
  | x :: l' => (start, x) :: enumerate (S start) l'
  end.

End PyText.

Import PyText.

(* ================================================================== *)
(** * [OpenAIExtractor.extract_text_from_docx] (openai_extractor.py) *)

Module ExtractorText.

(** [para.style.name if para.style else "Normal"] *)
Definition style_name_of (para : Paragraph) : option string :=
  match para_style para with
  | Some st => name st
  | None => Some "Normal"
  end.

(** Body of the loop over [doc.paragraphs]; the state is [text_parts]. *)
Definition para_step (text_parts : list string) (para : Paragraph)
    : result (list string) :=
  let text := strip (para_text para) in
  if truthy text then
    let style_name := style_name_of para in
    head <- contains_opt "Head" style_name ;;
    marked <- (if head then Ok true else contains_opt "Title" style_name) ;;
    if marked
    then Ok (text_parts ++ [(nl ++ "### " ++ text ++ " ###" ++ nl)%string])%list
    else Ok (text_parts ++ [text])%list
  else Ok text_parts.

(** Body of the loop over [table.rows]. *)
Definition row_step (text_parts : list string) (row : Row) : list string :=
  let row_text :=
    join " | " (map (fun cell => strip (cell_text cell)) (cells row)) in
  if truthy (strip row_text)
  then (text_parts ++ [row_text])%list
  else text_parts.

(** Body of the loop over [doc.tables]. *)
Definition table_step (text_parts : list string) (table : Table)
    : list string :=
  let text_parts := (text_parts ++ [(nl ++ "[TABLE]")%string])%list in
  let text_parts := fold_left row_step (rows table) text_parts in
  (text_parts ++ [("[/TABLE]" ++ nl)%string])%list.

(** The method after [doc = Document(file_path)]. *)
Definition text_of_document (doc : Document) : result string :=
  text_parts <- for_fold para_step (doc_paragraphs doc) [] ;;
  let text_parts := fold_left table_step (doc_tables doc) text_parts in
  Ok (join nl text_parts).

End ExtractorText.

(* ================================================================== *)
(** * [extract_docx_content] (extract_docx.py) *)

Module ExtractDocx.

(** Body of the loop over [enumerate(doc.paragraphs)]. *)
Definition para_step (output : list string) (ip : nat * Paragraph)
    : list string :=
  let '(i, para) := ip in
  let text := strip (para_text para) in
  if truthy text then
    let style := ExtractorText.style_name_of para in
    (output ++ [("[" ++ format_nat i ++ "] [" ++ format_opt style ++ "] "
                   ++ text)%string])%list
  else output.

(** Body of the loop over [enumerate(table.rows)]. *)
Definition row_step (output : list string) (ir : nat * Row) : list string :=
  let '(row_idx, row) := ir in
  let cells := map (fun cell => strip (cell_text cell)) (cells row) in
  (output ++ [("  Row " ++ format_nat (row_idx + 1) ++ ": "
                 ++ join " | " cells)%string])%list.

(** Body of the loop over [enumerate(doc.tables)]. *)
Definition table_step (output : list string) (it : nat * Table)
    : list string :=
  let '(table_idx, table) := it in
  let output :=
    (output
       ++ [(nl ++ "Table " ++ format_nat (table_idx + 1) ++ ":")%string])%list
  in
  fold_left row_step (enumerate 0 (rows table)) output.

(** The list [output] when the function returns. *)
Definition output_of_document (doc : Document) : list string :=
  let output := fold_left para_step (enumerate 0 (doc_paragraphs doc)) [] in
  match doc_tables doc with
  | [] => output
  | _ :: _ =>
      let output :=
        (output ++ [(nl ++ nl ++ "=== TABLES ===" ++ nl)%string])%list in
      fold_left table_step (enumerate 0 (doc_tables doc)) output
  end.

(** The function after [doc = Document(file_path)]. *)
Definition content_of_document (doc : Document) : string :=
  join nl (output_of_document doc).

End ExtractDocx.

(* ================================================================== *)
(** * Vocabulary of the further statements *)

(** Only whitespace. *)
Definition blank (s : string) : bool := all_chars is_space s.

(** A paragraph whose style has no name. *)
Definition unnamed (para : Paragraph) : bool :=
  match para_style para with
  | Some st =>
      match name st with
      | None => true
      | Some _ => false
      end
  | None => false
  end.

Definition is_heading (style_name : string) : bool :=
  occurs "Head" style_name || occurs "Title" style_name.

(** How the text shows a stored paragraph. *)
Definition rendered (p : Para) : string :=
  match style p with
  | Some n =>
      if is_heading n then nl ++ "### " ++ text p ++ " ###" ++ nl else text p
  | None => text p
  end.

(** The cells of a row, trimmed and joined. *)
Definition row_text (row : Row) : string := join " | " (trimmed_row row).

(** What one table adds to the text. *)
Definition table_block (table : Table) : list string :=
  ([(nl ++ "[TABLE]")%string]
     ++ filter (fun t => negb (blank t)) (map row_text (rows table))
     ++ [("[/TABLE]" ++ nl)%string])%list.

(** The document that holds what the content holds. *)
Definition as_document (c : Content) : Document :=
  {| doc_paragraphs :=
       map (fun p => {| para_text := text p;
                        para_style :=
                          match style p with
                          | Some n => Some {| name := Some n |}
                          | None => None
                          end |}) (paragraphs c);
     doc_tables :=
       map (fun t =>
              {| rows := map (fun r =>
                                {| cells := map (fun c => {| cell_text := c |})
                                              r |}) t |}) (tables c) |}.

(** A stored paragraph: its text is not empty and carries no whitespace at
    either end. *)
Definition trimmed_para (p : Para) : Prop :=
  text p <> "" /\ strip (text p) = text p.

(** A stored row: every cell is trimmed and some cell is not empty. *)
Definition trimmed_cells (r : list string) : Prop :=
  any r = true /\ Forall (fun c => strip c = c) r.

(** A stored table: it has a row and its rows are as above. *)
Definition trimmed_rows (t : list (list string)) : Prop :=
  t <> [] /\ Forall trimmed_cells t.

(** A subject of one piece: not empty, on one line, without a hyphen. *)
Definition plain_subject (s : string) : Prop :=
  s <> ""
  /\ all_chars (fun a => negb (is_newline a) && negb (Ascii.eqb a "-")) s
     = true.

(** A year of four digits. *)
Definition year4 (y : string) : Prop :=
  String.length y = 4 /\ all_chars is_digit y = true.

(** The filenames ["N-S-Y-Approved-Math-SOL.docx"]. *)
Definition sol_name_of (N S Y : string) : string :=
  N ++ "-" ++ S ++ "-" ++ Y ++ "-Approved-Math-SOL.docx".

(** The filenames ["N-S-Understanding the Standards.docx"]. *)
Definition understanding_name_of (N S : string) : string :=
  N ++ "-" ++ S ++ "-Understanding the Standards.docx".

(** How many times [c] occurs in [s]. *)
Fixpoint count_char (c : ascii) (s : string) : nat :=
  match s with
  | EmptyString => 0
  | String a s' => (if Ascii.eqb a c then 1 else 0) + count_char c s'
  end.

(* ================================================================== *)
(** * Code that reads and writes

    What lies outside the program (the file system, the decoder of .docx
    files, the clock, the completion service) is a state [W] that every
    outside operation may read and change; an operation takes the state and
    gives back a result or an exception, and the new state.  [print] is one
    of these operations: it is given what the text shows and may raise, as
    it does on a console that cannot encode a character.  The exceptions
    that [except Exception] does not catch (KeyboardInterrupt, SystemExit)
    are left out. *)

Module World.

Section Monad.

Variable W : Type.

Definition M (A : Type) : Type := W -> result A * W.

Definition ret {A} (a : A) : M A := fun w => (Ok a, w).

Definition bindM {A B} (m : M A) (f : A -> M B) : M B :=
  fun w =>
    match m w with
    | (Ok a, w') => f a w'
    | (Raise e, w') => (Raise e, w')
    end.

(** A computation without outside operation. *)
Definition lift {A} (r : result A) : M A := fun w => (r, w).

(** [raise] *)
Definition raise {A} (e : exn) : M A := fun w => (Raise e, w).

(** [try: body  except Exception as e: handler] *)
Definition try_except {A} (body : M A) (handler : exn -> M A) : M A :=
  fun w =>
    match body w with
    | (Ok a, w') => (Ok a, w')
    | (Raise e, w') => handler e w'
    end.

(** A [for] loop that updates its state. *)
Fixpoint for_loop {A S} (body : S -> A -> M S) (l : list A) (s : S) : M S :=
  match l with
  | [] => ret s
  | x :: l' => bindM (body s x) (for_loop body l')
  end.

End Monad.

Arguments ret {W A} a.
Arguments bindM {W A B} m f.
Arguments lift {W A} r.
Arguments raise {W A} e.
Arguments try_except {W A} body handler.
Arguments for_loop {W A S} body l s.

End World.

Import World.

Notation "x <~ m ;; k" := (bindM m (fun x => k))
  (at level 61, m at next level, right associativity).
Notation "m ;;~ k" := (bindM m (fun _ => k))
  (at level 61, right associativity).

(* ================================================================== *)
(** * [SOLParser.parse_document], [save_json], [save_csv] (parser.py) and
      batch_process.py *)

(** The dictionary [parse_document] returns. *)
Module Parsed.

Record t : Type :=
  { metadata : SOLParser.metadata;
    content : Content;
    source_file : string }.

Definition opt_str (s : option string) : value :=
  match s with
  | Some s => VStr s
  | None => VNone
  end.

Definition strs (l : list string) : value := VList (map VStr l).

(** The same as a JSON-shaped value, which is what [json.dump] is given. *)
Definition to_value (data : t) : value :=
  VDict
    [("metadata", VDict (map (fun kv => (fst kv, VStr (snd kv))) (metadata data)));
     ("content",
      VDict
        [("paragraphs",
          VList (map (fun p => VDict [("text", VStr (text p));
                                      ("style", opt_str (style p))])
                   (paragraphs (content data))));
         ("tables",
          VList (map (fun tb => VList (map strs tb)) (tables (content data))));
         ("identified_standards", strs (identified_standards (content data)));
         ("total_paragraphs",
          VInt (Z.of_nat (total_paragraphs (content data))));
         ("total_tables", VInt (Z.of_nat (total_tables (content data))))]);
     ("source_file", VStr (source_file data))].

End Parsed.

Module ParserIO.

(** [d.get(k, default)] on a dictionary of strings. *)
Definition get (d : list (string * string)) (k default : string) : string :=
  match lookup k d with
  | Some v => v
  | None => default
  end.

(** The rows [save_csv] hands to its [csv.writer], first the header. *)
Definition csv_rows (data : Parsed.t) : list (list string) :=
  ["Standard"; "Source"; "Grade Level"; "Subject"]
  :: map (fun standard =>
            [standard;
             Parsed.source_file data;
             get (Parsed.metadata data) "grade_level" "Unknown";
             get (Parsed.metadata data) "subject" "Mathematics"])
       (identified_standards (Parsed.content data)).

(** The rows [create_combined_csv] hands to its [csv.writer]. *)
Definition combined_rows (results : list Parsed.t) : list (list string) :=
  ["Standard"; "Source File"; "Document Type"; "Grade Level"; "Subject"]
  :: flat_map
       (fun result =>
          let metadata := Parsed.metadata result in
          map (fun standard =>
                 [standard;
                  Parsed.source_file result;
                  get metadata "type" "Unknown";
                  get metadata "grade_level" "Unknown";
                  get metadata "subject" "Mathematics"])
            (identified_standards (Parsed.content result)))
       results.

(** What batch_process.py prints: one constructor for each [print] of the
    script, in the order of the script, with the values its text shows.
    Making the text from them is part of [print]. *)
Inductive Message : Type :=
| NoFilesFound (input_dir : string)
| FoundDocuments (total : nat)
| Dashes
| Processing (idx total : nat) (name : string)
| ExtractedStandards (count : nat)
| SavedTo (name : string)
| ErrorProcessing (name : string) (e : exn)
| EmptyLine
| Equals
| ProcessingComplete
| TotalDocuments (total : nat)
| Successful (count : nat)
| Failed (count : nat)
| OutputDirectory (output_dir : string)
| CombinedOutput (name : string)
| CombinedCsvSaved (name : string).

Section Outside.

Variable W : Type.

(** [docx.Document(path)] *)
Variable load_document : string -> M W Document.
(** [Path(path).name], [Path(path).stem] and [dir / name] *)
Variable path_name : string -> string.
Variable path_stem : string -> string.
Variable path_join : string -> string -> string.
(** [with open(path, 'w', ...) as f: json.dump(data, f, ...)] *)
Variable dump_json : string -> value -> M W unit.
(** [with open(path, 'w', ...) as f:] and the rows written through
    [csv.writer(f)] *)
Variable write_csv : string -> list (list string) -> M W unit.
(** [Path(dir).mkdir(parents=True, exist_ok=True)] *)
Variable mkdir : string -> M W unit.
(** [list(Path(dir).glob("*.docx"))] *)
Variable glob_docx : string -> M W (list string).
(** [datetime.now().isoformat()] *)
Variable now_isoformat : M W string.
(** [print(...)] *)
Variable print : Message -> M W unit.

Definition parse_document (file_path : string) : M W Parsed.t :=
  doc <~ load_document file_path ;;
  let filename := path_name file_path in
  doc_info <~ lift (_parse_filename filename) ;;
  let content := _extract_content doc in
  ret {| Parsed.metadata := doc_info;
         Parsed.content := content;
         Parsed.source_file := filename |}.

Definition save_json (data : Parsed.t) (output_path : string) : M W unit :=
  dump_json output_path (Parsed.to_value data).

Definition save_csv (data : Parsed.t) (output_path : string) : M W unit :=
  write_csv output_path (csv_rows data).

Definition create_combined_csv (results : list Parsed.t)
    (output_path : string) : M W unit :=
  write_csv output_path (combined_rows results) ;;~
  print (CombinedCsvSaved (path_name output_path)).

(** The state of the loop of [process_all_documents]. *)
Record progress : Type :=
  { all_results : list Parsed.t;
    successful : nat;
    failed : nat }.

Definition count_failed (st : progress) : progress :=
  {| all_results := all_results st;
     successful := successful st;
     failed := failed st + 1 |}.

(** The [except] clause of the loop. *)
Definition on_error (st : progress) (file_path : string) (e : exn)
    : M W progress :=
  print (ErrorProcessing (path_name file_path) e) ;;~
  ret (count_failed st).

(** The [try] statement of the loop over [enumerate(docx_files, 1)];
    [total] is [len(docx_files)].  The updates of [all_results] and
    [successful] come before the last two prints of the [try], so they stay
    when one of these raises. *)
Definition process_try (total : nat) (output_path : string) (st : progress)
    (item : nat * string) : M W progress :=
  let idx := fst item in
  let file_path := snd item in
  let output_filename := path_stem file_path ++ ".json" in
  let json_path := path_join output_path output_filename in
  let csv_filename := path_stem file_path ++ "_standards.csv" in
  let csv_path := path_join output_path csv_filename in
  fun w =>
    match (print (Processing idx total (path_name file_path)) ;;~
           result <~ parse_document file_path ;;
           save_json result json_path ;;~
           save_csv result csv_path ;;~
           ret result) w with
    | (Raise e, w') => on_error st file_path e w'
    | (Ok result, w') =>
        let st :=
          {| all_results := (all_results st ++ [result])%list;
             successful := successful st + 1;
             failed := failed st |} in
        match (print (ExtractedStandards
                        (List.length
                           (identified_standards (Parsed.content result)))) ;;~
               print (SavedTo (path_name json_path))) w' with
        | (Raise e, w'') => on_error st file_path e w''
        | (Ok _, w'') => (Ok st, w'')
        end
    end.

(** Body of the loop: the [try] statement and the [print()] after it. *)
Definition process_step (total : nat) (output_path : string) (st : progress)
    (item : nat * string) : M W progress :=
  st <~ process_try total output_path st item ;;
  print EmptyLine ;;~
  ret st.

(** The loop of [process_all_documents], from its three initial values. *)
Definition process_loop (output_path : string) (docx_files : list string)
    : M W progress :=
  for_loop (process_step (List.length docx_files) output_path)
    (enumerate 1 docx_files)
    {| all_results := []; successful := 0; failed := 0 |}.

(** What is dumped to all_documents.json. *)
Definition combined_output (processed_date : string) (total : nat)
    (st : progress) : value :=
  VDict [("processed_date", VStr processed_date);
         ("total_documents", VInt (Z.of_nat total));
         ("successful", VInt (Z.of_nat (successful st)));
         ("failed", VInt (Z.of_nat (failed st)));
         ("documents", VList (map Parsed.to_value (all_results st)))].

Definition process_all_documents (input_dir output_dir : string) : M W unit :=
  mkdir output_dir ;;~
  docx_files <~ glob_docx input_dir ;;
  match docx_files with
  | [] => print (NoFilesFound input_dir)
  | _ :: _ =>
      print (FoundDocuments (List.length docx_files)) ;;~
      print Dashes ;;~
      st <~ process_loop output_dir docx_files ;;
      processed_date <~ now_isoformat ;;
      let combined_path := path_join output_dir "all_documents.json" in
      dump_json combined_path
        (combined_output processed_date (List.length docx_files) st) ;;~
      create_combined_csv (all_results st)
        (path_join output_dir "all_standards.csv") ;;~
      print Equals ;;~
      print ProcessingComplete ;;~
      print Equals ;;~
      print (TotalDocuments (List.length docx_files)) ;;~
      print (Successful (successful st)) ;;~
      print (Failed (failed st)) ;;~
      print (OutputDirectory output_dir) ;;~
      print (CombinedOutput (path_name combined_path))
  end.

End Outside.

End ParserIO.

(* ================================================================== *)
(** * [OpenAIExtractor]: the constructor, [extract_structured_data] and
      [extract_batch] (openai_extractor.py) *)

Module ExtractorIO.

(** [v[k] = x] for a string [k]: the key keeps its place when it is there
    and goes to the end when it is new. *)
Fixpoint set_key (k : string) (x : value) (d : list (string * value))
    : list (string * value) :=
  match d with
  | [] => [(k, x)]
  | (k', v) :: d' =>
      if String.eqb k k' then (k', x) :: d' else (k', v) :: set_key k x d'
  end.

Definition setitem (v : value) (k : string) (x : value) : result value :=
  match v with
  | VDict d => Ok (VDict (set_key k x d))
  | _ => Raise TypeError
  end.

(** [api_key or os.getenv("OPENAI_API_KEY")]: [None] and the empty string
    count as absent, as they do in [if not self.api_key]. *)
Definition api_key_or_env (api_key env : option string) : option string :=
  match api_key with
  | Some (String _ _) => api_key
  | _ => env
  end.

(** What the service sends back, as far as the program reads it:
    [choices[0].message.content] and the three counters of [usage]. *)
Record Response : Type :=
  { reply : string;
    total_tokens : Z;
    prompt_tokens : Z;
    completion_tokens : Z }.

(** The keyword arguments of [chat.completions.create]; [response_format]
    is always [{"type": "json_object"}]. *)
Record Request : Type :=
  { req_model : string;
    req_messages : list (string * string);
    req_temperature : value }.

(** What openai_extractor.py prints in [extract_structured_data] and in
    [extract_batch]: one constructor for each [print], in the order of the
    file, with the values its text shows.  Making the text from them is part
    of [print]. *)
Inductive Message : Type :=
| ExtractingText (name : string)
| SavedRawText (name : string)
| CallingApi (model : string)
| ExtractionComplete (tokens : Z)
| ErrorDuringExtraction (e : exn)
| ProcessingDocuments (total : nat)
| Equals
| Item (idx total : nat) (name : string)
| SavedTo (output_filename : string)
| FailedWith (e : exn)
| EqualsAfterEmptyLine
| BatchProcessingComplete
| SuccessfulOf (count total : nat)
| FailedOf (count total : nat)
| TotalTokensUsed (total_tokens : value)
| OutputDirectory (output_dir : string)
| CombinedOutput (name : string).

(** The default [temperature: float = 0.1] of [extract_structured_data]:
    the double nearest to 0.1, as its 64 bits. *)
Definition default_temperature : value := VFloat 4591870180066957722.

Section Outside.

Variable W : Type.

(** [docx.Document(path)] *)
Variable load_document : string -> M W Document.
(** [Path(path).name], [Path(path).stem], [Path(path).with_suffix('.txt')]
    and [dir / name] *)
Variable path_name : string -> string.
Variable path_stem : string -> string.
Variable path_txt : string -> string.
Variable path_join : string -> string -> string.
(** [with open(path, 'w', ...) as f: f.write(text)] *)
Variable write_text : string -> string -> M W unit.
(** [with open(path, 'w', ...) as f: json.dump(data, f, ...)] *)
Variable dump_json : string -> value -> M W unit.
(** [Path(dir).mkdir(parents=True, exist_ok=True)] *)
Variable mkdir : string -> M W unit.
(** [OpenAI(api_key=...)] and [client.chat.completions.create(...)], with
    the reading of the reply *)
Variable create_completion : string -> Request -> M W Response.
(** [json.loads] *)
Variable json_loads : string -> result value.
(** Addition when an operand is a [float]. *)
Variable float_add : value -> value -> result value.
(** [print(...)] *)
Variable print : Message -> M W unit.
(** The text of schema.py *)
Variable OPENAI_EXTRACTION_PROMPT : string.

(** The extractor: its key and its model. *)
Record Extractor : Type :=
  { api_key : string;
    model : string }.

(** [OpenAIExtractor(api_key, model)] where [env] is the value of
    OPENAI_API_KEY in the environment. *)
Definition init (key env : option string) (model : string)
    : result Extractor :=
  match api_key_or_env key env with
  | Some (String a k) => Ok {| api_key := String a k; model := model |}
  | _ => Raise ValueError
  end.

Definition extract_text_from_docx (file_path : string) : M W string :=
  doc <~ load_document file_path ;;
  lift (ExtractorText.text_of_document doc).

(** The dictionary stored under ["_extraction_metadata"]. *)
Definition extraction_metadata (self : Extractor) (file_path : string)
    (temperature : value) (response : Response) : value :=
  VDict [("source_file", VStr (path_name file_path));
         ("model", VStr (model self));
         ("temperature", temperature);
         ("tokens_used", VInt (total_tokens response));
         ("prompt_tokens", VInt (prompt_tokens response));
         ("completion_tokens", VInt (completion_tokens response))].

(** The request sent for the text [doc_text]. *)
Definition request (self : Extractor) (temperature : value)
    (doc_text : string) : Request :=
  {| req_model := model self;
     req_messages :=
       [("system", OPENAI_EXTRACTION_PROMPT);
        ("user",
         "Extract structured data from this SOL document:"
           ++ nl ++ nl ++ doc_text)];
     req_temperature := temperature |}.

Definition extract_structured_data (self : Extractor) (file_path : string)
    (temperature : value) (save_raw_text : bool) : M W value :=
  print (ExtractingText (path_name file_path)) ;;~
  doc_text <~ extract_text_from_docx file_path ;;
  (if save_raw_text
   then
     let text_path := path_txt file_path in
     write_text text_path doc_text ;;~
     print (SavedRawText (path_name text_path))
   else ret tt) ;;~
  print (CallingApi (model self)) ;;~
  try_except
    (response <~ create_completion (api_key self)
                   (request self temperature doc_text) ;;
     result <~ lift (json_loads (reply response)) ;;
     result <~ lift (setitem result "_extraction_metadata"
                       (extraction_metadata self file_path temperature
                          response)) ;;
     print (ExtractionComplete (total_tokens response)) ;;~
     ret result)
    (fun e =>
       print (ErrorDuringExtraction e) ;;~
       raise e).

(** [a + b] *)
Definition add (a b : value) : result value :=
  match a, b with
  | VInt x, VInt y => Ok (VInt (x + y))
  | VInt x, VBool y => Ok (VInt (x + Z.b2z y))
  | VBool x, VInt y => Ok (VInt (Z.b2z x + y))
  | VBool x, VBool y => Ok (VInt (Z.b2z x + Z.b2z y))
  | VFloat _, VFloat _ | VFloat _, VInt _ | VFloat _, VBool _
  | VInt _, VFloat _ | VBool _, VFloat _ => float_add a b
  | VStr x, VStr y => Ok (VStr (x ++ y))
  | VList x, VList y => Ok (VList (x ++ y))
  | _, _ => Raise TypeError
  end.

(** The state of the loop of [extract_batch]. *)
Record progress : Type :=
  { results : list value;
    successful : nat;
    failed : nat;
    batch_tokens : value }.

Definition count_failed (st : progress) : progress :=
  {| results := results st;
     successful := successful st;
     failed := failed st + 1;
     batch_tokens := batch_tokens st |}.

(** The [except] clause of the loop. *)
Definition on_error (st : progress) (e : exn) : M W progress :=
  print (FailedWith e) ;;~
  ret (count_failed st).

(** The [try] statement of the loop over [enumerate(file_paths, 1)];
    [extract_structured_data] is called without [temperature].  The three
    updates at the end of the [try] happen one after the other, so what was
    updated stays so when a later one raises. *)
Definition batch_try (self : Extractor) (output_path : string)
    (save_raw_text : bool) (st : progress) (file_path : string)
    : M W progress :=
  fun w =>
    match (result <~ extract_structured_data self file_path
                       default_temperature save_raw_text ;;
           let output_filename := path_stem file_path ++ "_structured.json" in
           let json_path := path_join output_path output_filename in
           dump_json json_path result ;;~
           print (SavedTo output_filename) ;;~
           ret result) w with
    | (Raise e, w') => on_error st e w'
    | (Ok result, w') =>
        let st :=
          {| results := (results st ++ [result])%list;
             successful := successful st + 1;
             failed := failed st;
             batch_tokens := batch_tokens st |} in
        match (meta <- getitem result "_extraction_metadata" ;;
               used <- getitem meta "tokens_used" ;;
               add (batch_tokens st) used) with
        | Raise e => on_error st e w'
        | Ok sum =>
            (Ok {| results := results st;
                   successful := successful st;
                   failed := failed st;
                   batch_tokens := sum |}, w')
        end
    end.

(** Body of the loop: the print that stands before the [try], and the
    [try] statement; [total] is [len(file_paths)]. *)
Definition batch_step (self : Extractor) (total : nat) (output_path : string)
    (save_raw_text : bool) (st : progress) (item : nat * string)
    : M W progress :=
  let idx := fst item in
  let file_path := snd item in
  print (Item idx total (path_name file_path)) ;;~
  batch_try self output_path save_raw_text st file_path.

(** The loop of [extract_batch], from its four initial values. *)
Definition batch_loop (self : Extractor) (file_paths : list string)
    (output_path : string) (save_raw_text : bool) : M W progress :=
  for_loop
    (batch_step self (List.length file_paths) output_path save_raw_text)
    (enumerate 1 file_paths)
    {| results := []; successful := 0; failed := 0;
       batch_tokens := VInt 0 |}.

(** The dictionary [extract_batch] returns. *)
Definition combined (total : nat) (st : progress) : value :=
  VDict [("total_documents", VInt (Z.of_nat total));
         ("successful", VInt (Z.of_nat (successful st)));
         ("failed", VInt (Z.of_nat (failed st)));
         ("total_tokens_used", batch_tokens st);
         ("documents", VList (results st))].

Definition extract_batch (self : Extractor)
    (file_paths : list string) (output_dir : string) (save_raw_text : bool)
    : M W value :=
  mkdir output_dir ;;~
  print (ProcessingDocuments (List.length file_paths)) ;;~
  print Equals ;;~
  st <~ batch_loop self file_paths output_dir save_raw_text ;;
  let combined := combined (List.length file_paths) st in
  let combined_path :=
    path_join output_dir "all_structured_documents.json" in
  dump_json combined_path combined ;;~
  print EqualsAfterEmptyLine ;;~
  print BatchProcessingComplete ;;~
  print Equals ;;~
  print (SuccessfulOf (successful st) (List.length file_paths)) ;;~
  print (FailedOf (failed st) (List.length file_paths)) ;;~
  print (TotalTokensUsed (batch_tokens st)) ;;~
  print (OutputDirectory output_dir) ;;~
  print (CombinedOutput (path_name combined_path)) ;;~
  ret combined.

End Outside.

End ExtractorIO.

(* ================================================================== *)
(** * Vocabulary of the statements on reading and writing *)

(** A row of the CSV of one document, with the type of the document put
    before the grade level. *)
Definition with_type (type : string) (row : list string) : list string :=
  match row with
  | [standard; source; grade_level; subject] =>
      [standard; source; type; grade_level; subject]
  | _ => row
  end.

(** How many standards the documents have together. *)
Definition standards_count (results : list Parsed.t) : nat :=
  list_sum (map (fun r => List.length
                            (identified_standards (Parsed.content r)))
              results).

(** A world without state, in which every file holds [doc]. *)
Definition always (doc : Document) (path : string) : M unit Document :=
  ret doc.

(** The number stored under ["_extraction_metadata"]["tokens_used"]. *)
Definition tokens_used_of (result : value) : Z :=
  match (meta <- getitem result "_extraction_metadata" ;;
         getitem meta "tokens_used") with
  | Ok (VInt n) => n
  | _ => 0%Z
  end.

(** A result that carries the metadata of its extraction: where it came
    from and a count of tokens. *)
Definition stamped (source : string) (result : value) : Prop :=
  exists d meta n,
    result = VDict d
    /\ lookup "_extraction_metadata" d = Some (VDict meta)
    /\ lookup "source_file" meta = Some (VStr source)
    /\ lookup "tokens_used" meta = Some (VInt n).

Definition sum_Z (l : list Z) : Z := fold_right Z.add 0%Z l.

(** A world without state for the extractor: every file holds
    [sample_document], the service answers "strand" and counts [n] tokens,
    the decoder reads that answer as [document_with_empty_strand], and
    nothing fails. *)
Definition quiet {A} (a : A) : M unit A := ret a.

Definition sample_response (n : Z) : ExtractorIO.Response :=
  {| ExtractorIO.reply := "strand";
     ExtractorIO.total_tokens := n;
     ExtractorIO.prompt_tokens := n;
     ExtractorIO.completion_tokens := 0 |}.

Definition sample_loads (text : string) : result value :=
  if String.eqb text "strand" then Ok document_with_empty_strand
  else Raise ValueError.

Definition sample_extractor : ExtractorIO.Extractor :=
  {| ExtractorIO.api_key := "sk-test"; ExtractorIO.model := "gpt-4o-mini" |}.

Definition sample_extract (file_path : string) : M unit value :=
  ExtractorIO.extract_structured_data unit (always sample_document)
    (fun p => p) (fun p => p) (fun _ _ => quiet tt)
    (fun _ _ => quiet (sample_response 7))
    sample_loads (fun _ => quiet tt) "prompt" sample_extractor file_path
    (VInt 0) false.



(** How many line feeds a string has. *)
Definition line_feeds (s : string) : nat := count_char "010" s.

(** A text without line feed, but for those at its ends. *)
Definition one_line (s : string) : Prop := line_feeds (strip s) = 0.

(** A document whose paragraphs, names of styles and cells are such. *)
Definition single_lined (doc : Document) : Prop :=
  Forall (fun para =>
            one_line (para_text para)
            /\ line_feeds (format_opt (ExtractorText.style_name_of para)) = 0)
    (doc_paragraphs doc)
  /\ Forall (fun table =>
               Forall (fun row =>
                         Forall (fun cell => one_line (cell_text cell))
                           (cells row))
                 (rows table))
       (doc_tables doc).

(** The line of [extract_docx_content] for the paragraph at place [i]. *)
Definition para_line (ip : nat * Paragraph) : string :=
  "[" ++ format_nat (fst ip) ++ "] ["
    ++ format_opt (ExtractorText.style_name_of (snd ip)) ++ "] "
    ++ strip (para_text (snd ip)).

(** Its line for the row at place [i] of a table. *)
Definition row_line (ir : nat * Row) : string :=
  "  Row " ++ format_nat (fst ir + 1) ++ ": "
    ++ join " | " (trimmed_row (snd ir)).

(** Its lines for the table at place [i]. *)
Definition table_lines (it : nat * Table) : list string :=
  (nl ++ "Table " ++ format_nat (fst it + 1) ++ ":")
  :: map row_line (enumerate 0 (rows (snd it))).

(** Its lines for the tables: nothing when there is none. *)
Definition tables_section (ts : list Table) : list string :=
  match ts with
  | [] => []
  | _ :: _ =>
      (nl ++ nl ++ "=== TABLES ===" ++ nl)
      :: flat_map table_lines (enumerate 0 ts)
  end.

(** A subject of one word: not empty and without whitespace. *)
Definition solid_subject (s : string) : Prop :=
  s <> "" /\ all_chars (fun a => negb (is_space a)) s = true.

(** The filenames ["N. S Mathematics Instructional Guide.docx"]. *)
Definition subject_guide_name_of (N S : string) : string :=
  N ++ ". " ++ S ++ " Mathematics Instructional Guide.docx".

(** A world in which no directory can be made. *)
Definition readonly (dir : string) : M unit unit :=
  fun w => (Raise ValueError, w).

(* ================================================================== *)
(** * The program on examples *)

Example sol_name :
  _parse_filename "3-Grade 3-2023-Approved-Math-SOL.docx"
  = Ok [("type", "Approved SOL Standards"); ("number", "3");
        ("subject", "Grade 3"); ("year", "2023"); ("grade_level", "Grade 3")].
Proof. reflexivity. Qed.

Example understanding_name :
  _parse_filename "12-AFDA-Understanding the Standards.docx"
  = Ok [("type", "Understanding the Standards"); ("number", "12");
        ("subject", "AFDA"); ("grade_level", "Algebra 2")].
Proof. reflexivity. Qed.

Example subject_guide_name :
  _parse_filename "11. Algebra 2 Mathematics Instructional Guide.docx"
  = Ok [("type", "Instructional Guide"); ("number", "11");
        ("subject", "Algebra 2"); ("grade_level", "AFDA")].
Proof. reflexivity. Qed.

Example unlisted_number :
  _parse_filename "42-Biology-Understanding the Standards.docx"
  = Ok [("type", "Understanding the Standards"); ("number", "42");
        ("subject", "Biology"); ("grade_level", "Biology")].
Proof. reflexivity. Qed.

Example other_name :
  _parse_filename "notes.docx"
  = Ok [("type", "Unknown"); ("filename", "notes.docx")].
Proof. reflexivity. Qed.

Example lazy_subject_backtracks :
  re_match sol_pattern "7-Pre-Algebra-2016-Approved-Math-SOL.docx"
  = Some ["7"; "Pre-Algebra"; "2016"].
Proof. reflexivity. Qed.

Example int_forms :
  int " +0_12 " = Ok 12%Z /\ int "-7" = Ok (-7)%Z
  /\ int "1__2" = Raise ValueError /\ int "" = Raise ValueError.
Proof. repeat split. Qed.

Example sample_content :
  _extract_content sample_document
  = {| paragraphs :=
         [{| text := "1.1 Count to ten"; style := None |};
          {| text := "Number Sense"; style := Some "Heading 1" |};
          {| text := "1.1 Count to ten"; style := None |}];
       tables := [[["G.5"; ""]]];
       identified_standards := ["1.1 Count to ten"; "1.1 Count to ten"];
       total_paragraphs := 3;
       total_tables := 1 |}.
Proof. reflexivity. Qed.

(* ================================================================== *)
(** * Strings *)

Section StringFacts.

Lemma length_append (u v : string) :
  String.length (u ++ v) = String.length u + String.length v.
Proof. induction u as [|a u IH]; simpl; [reflexivity | now rewrite IH]. Qed.

Lemma append_empty_r (u : string) : u ++ "" = u.
Proof. induction u as [|a u IH]; simpl; [reflexivity | now rewrite IH]. Qed.

Lemma append_assoc (u v w : string) : (u ++ v) ++ w = u ++ v ++ w.
Proof. induction u as [|a u IH]; simpl; [reflexivity | now rewrite IH]. Qed.

Lemma take_append (u v : string) : take (String.length u) (u ++ v) = u.
Proof.
  induction u as [|a u IH]; simpl.
  - now destruct v.
  - now rewrite IH.
Qed.

Lemma all_chars_append (p : ascii -> bool) (u v : string) :
  all_chars p (u ++ v) = all_chars p u && all_chars p v.
Proof.
  induction u as [|a u IH]; simpl; [reflexivity|].
  now rewrite IH, andb_assoc.
Qed.

End StringFacts.

(* ================================================================== *)
(** * The matcher finds exactly what the patterns accept *)

Section Matcher.

Context {A : Type}.

Lemma rep_eq g c lo hi pos s (k : nat -> string -> option A) :
  rep g c lo hi pos s k =
    let stop := if (lo =? 0)%nat then k pos s else None in
    let more :=
      match s with
      | String a s' =>
          if mem c a && room hi
          then rep g c (pred lo) (option_map pred hi) (S pos) s' k
          else None
      | EmptyString => None
      end in
    if g
    then match more with Some x => Some x | None => stop end
    else match stop with Some x => Some x | None => more end.
Proof. destruct s; reflexivity. Qed.

(** A successful repetition either stops here or takes one character. *)
Lemma rep_cases g c lo hi pos s (k : nat -> string -> option A) x :
  rep g c lo hi pos s k = Some x ->
  (lo = 0 /\ k pos s = Some x)
  \/ (exists a s', s = String a s' /\ mem c a = true /\ room hi = true
        /\ rep g c (pred lo) (option_map pred hi) (S pos) s' k = Some x).
Proof.
  rewrite rep_eq; cbv zeta.
  assert (Hstop : (if (lo =? 0)%nat then k pos s else None) = Some x ->
                  lo = 0 /\ k pos s = Some x).
  { destruct (Nat.eqb_spec lo 0); [auto | discriminate]. }
  assert (Hmore :
    match s with
    | String a s' =>
        if mem c a && room hi
        then rep g c (pred lo) (option_map pred hi) (S pos) s' k
        else None
    | EmptyString => None
    end = Some x ->
    exists a s', s = String a s' /\ mem c a = true /\ room hi = true
      /\ rep g c (pred lo) (option_map pred hi) (S pos) s' k = Some x).
  { destruct s as [|a s']; [discriminate|].
    destruct (mem c a) eqn:Ha, (room hi) eqn:Hr; simpl; try discriminate.
    intros E; exists a, s'; auto. }
  destruct g.
  - destruct (match s with EmptyString => _ | String _ _ => _ end) eqn:E.
    + intros [= ->]. right; auto.
    + intros E'. left; auto.
  - destruct (if (lo =? 0)%nat then _ else _) eqn:E.
    + intros [= ->]. left; auto.
    + intros E'. right; auto.
Qed.

Lemma within_step hi n :
  room hi = true -> within (option_map pred hi) n -> within hi (S n).
Proof.
  destruct hi as [[|h]|]; simpl; intros; try discriminate; auto; lia.
Qed.

Lemma within_room hi n : within hi (S n) -> room hi = true.
Proof. destruct hi as [[|h]|]; simpl; intros; auto; lia. Qed.

Lemma within_pred hi n : within hi (S n) -> within (option_map pred hi) n.
Proof. destruct hi as [[|h]|]; simpl; intros; auto; lia. Qed.

Lemma rep_sound g c s : forall lo hi pos (k : nat -> string -> option A) x,
  rep g c lo hi pos s k = Some x ->
  exists w s',
    s = w ++ s' /\ all_chars (mem c) w = true /\ lo <= String.length w
    /\ within hi (String.length w) /\ k (pos + String.length w) s' = Some x.
Proof.
  induction s as [|a s IH]; intros lo hi pos k x H;
    apply rep_cases in H as [[-> Hk] | (a' & s' & E & Ha & Hr & H)].
  - exists "", "". rewrite Nat.add_0_r. simpl.
    repeat split; auto. destruct hi; simpl; lia.
  - discriminate.
  - exists "", (String a s). rewrite Nat.add_0_r. simpl.
    repeat split; auto. destruct hi; simpl; lia.
  - injection E as <- <-.
    apply IH in H as (w & s' & -> & Hw & Hlo & Hhi & Hk).
    exists (String a w), s'. simpl. rewrite Ha, Hw.
    repeat split; auto; [lia | now apply within_step |].
    now rewrite <- Nat.add_succ_comm.
Qed.

Lemma rep_complete g c w : forall lo hi pos s' (k : nat -> string -> option A),
  all_chars (mem c) w = true -> lo <= String.length w ->
  within hi (String.length w) ->
  k (pos + String.length w) s' <> None ->
  rep g c lo hi pos (w ++ s') k <> None.
Proof.
  induction w as [|a w IH]; intros lo hi pos s' k Hw Hlo Hhi Hk;
    rewrite rep_eq; cbv zeta.
  - simpl in *. assert (lo = 0) as -> by lia. rewrite Nat.add_0_r in Hk.
    simpl. destruct g.
    + destruct (match s' with EmptyString => _ | String _ _ => _ end);
        [discriminate | assumption].
    + destruct (k pos s'); [discriminate | contradiction].
  - simpl in Hw, Hlo, Hhi, Hk. apply andb_prop in Hw as [Ha Hw].
    simpl. rewrite Ha, (within_room _ _ Hhi). simpl.
    assert (Hrec : rep g c (pred lo) (option_map pred hi) (S pos) (w ++ s') k
                   <> None).
    { apply IH; auto; [lia | now apply within_pred |].
      now rewrite Nat.add_succ_comm. }
    destruct g.
    + destruct (rep true c (pred lo) (option_map pred hi) (S pos) (w ++ s') k);
        [discriminate | contradiction].
    + destruct (if (lo =? 0)%nat then _ else _); [discriminate | assumption].
Qed.

Lemma run_sound r : forall pos s caps
    (k : nat -> string -> list string -> option A) x,
  run r pos s caps k = Some x ->
  exists w s' caps',
    s = w ++ s' /\ matches r pos w caps caps'
    /\ k (pos + String.length w) s' caps' = Some x.
Proof.
  induction r as [| |c|g lo hi c|r1 IH1 r2 IH2|r1 IH1];
    intros pos s caps k x H; simpl in H.
  - exists "", s, caps. rewrite Nat.add_0_r. simpl. auto.
  - destruct (Nat.eqb_spec pos 0); [subst | discriminate].
    exists "", s, caps. simpl. auto.
  - destruct s as [|a s]; [discriminate|].
    destruct (mem c a) eqn:Ha; [|discriminate].
    exists (String a ""), s, caps. simpl. rewrite Nat.add_1_r.
    repeat split; eauto.
  - apply rep_sound in H as (w & s' & -> & Hw & Hlo & Hhi & Hk).
    exists w, s', caps. simpl. repeat split; auto.
  - apply IH1 in H as (w1 & s1 & caps1 & -> & M1 & H).
    apply IH2 in H as (w2 & s2 & caps2 & -> & M2 & H).
    exists (w1 ++ w2), s2, caps2.
    rewrite append_assoc, length_append, Nat.add_assoc.
    repeat split; auto. simpl. exists w1, w2, caps1. auto.
  - apply IH1 in H as (w & s' & caps' & -> & M & H).
    rewrite Nat.add_comm, Nat.add_sub, take_append, Nat.add_comm in H.
    exists w, s', (caps' ++ [w])%list. repeat split; auto.
    simpl. eauto.
Qed.

(** Whether a word is accepted does not depend on the captures so far. *)
Lemma matches_any_captures r : forall pos w caps caps' cs,
  matches r pos w caps caps' -> exists cs', matches r pos w cs cs'.
Proof.
  induction r as [| |c|g lo hi c|r1 IH1 r2 IH2|r1 IH1];
    simpl; intros pos w caps caps' cs M.
  - destruct M; eauto.
  - destruct M as (? & ? & ?); eauto.
  - destruct M; eauto.
  - destruct M as (? & ? & ? & ?); eauto 6.
  - destruct M as (u & v & cm & -> & Mu & Mv).
    destruct (IH1 _ _ _ _ cs Mu) as [cm' Mu'].
    destruct (IH2 _ _ _ _ cm' Mv) as [cm'' Mv'].
    exists cm'', u, v, cm'. auto.
  - destruct M as (cm & M & ->).
    destruct (IH1 _ _ _ _ cs M) as [cm' M'].
    exists (cm' ++ [w])%list, cm'. auto.
Qed.

Lemma run_complete r : forall pos w s' caps caps'
    (k : nat -> string -> list string -> option A),
  matches r pos w caps caps' ->
  (forall cs, k (pos + String.length w) s' cs <> None) ->
  run r pos (w ++ s') caps k <> None.
Proof.
  induction r as [| |c|g lo hi c|r1 IH1 r2 IH2|r1 IH1];
    intros pos w s' caps caps' k M Hk; simpl in M |- *.
  - destruct M as [-> ->]. simpl in *. rewrite Nat.add_0_r in Hk. auto.
  - destruct M as (-> & -> & ->). simpl in *. auto.
  - destruct M as [(a & -> & Ha) ->]. simpl in *. rewrite Ha.
    rewrite Nat.add_1_r in Hk. auto.
  - destruct M as (Hw & Hlo & Hhi & ->).
    apply rep_complete; auto.
  - destruct M as (w1 & w2 & caps1 & -> & M1 & M2).
    rewrite append_assoc. eapply IH1; [eassumption|].
    intros cs. 
    destruct (matches_any_captures _ _ _ _ _ cs M2) as [cs' M2'].
    eapply IH2; [eassumption|].
    intros cs2. rewrite <- Nat.add_assoc, <- length_append. apply Hk.
  - destruct M as (caps1 & M & ->).
    eapply IH1; [eassumption|]. intros cs. apply Hk.
Qed.

End Matcher.

(** [re.match] succeeds exactly when the pattern accepts a prefix of the
    subject, and then [groups()] are captures of such a prefix. *)
Lemma re_match_groups r s caps :
  re_match r s = Some caps ->
  exists w rest, s = w ++ rest /\ matches r 0 w [] caps.
Proof.
  unfold re_match. intros H.
  apply run_sound in H as (w & s' & caps' & -> & M & [= ->]). eauto.
Qed.

Lemma re_match_iff r s : re_match r s <> None <-> prefix_accepted r s.
Proof.
  split.
  - destruct (re_match r s) as [caps|] eqn:E; [intros _ | contradiction].
    apply re_match_groups in E as (w & rest & -> & M).
    exists w, rest, caps. auto.
  - intros (w & rest & caps & -> & M). unfold re_match.
    eapply run_complete; [eassumption | discriminate].
Qed.

Lemma re_fullmatch_iff r s : re_fullmatch r s <> None <-> accepted r s.
Proof.
  split.
  - destruct (re_fullmatch r s) as [caps|] eqn:E; [intros _ | contradiction].
    unfold re_fullmatch in E.
    apply run_sound in E as (w & s' & caps' & -> & M & E).
    destruct s'; [|discriminate]. rewrite append_empty_r. now exists caps'.
  - intros (caps & M). unfold re_fullmatch.
    rewrite <- (append_empty_r s).
    eapply run_complete; [eassumption | discriminate].
Qed.

(* ================================================================== *)
(** * Characters and [int] *)

Section Characters.

Lemma digit_not_space a : is_digit a = true -> is_space a = false.
Proof.
  unfold is_digit, is_space, in_range. generalize (code a); intros n.
  rewrite andb_true_iff, !N.leb_le.
  rewrite !orb_false_iff, !andb_false_iff, !N.leb_gt, !N.eqb_neq. lia.
Qed.

Lemma digit_not_newline a : is_digit a = true -> is_newline a = false.
Proof.
  unfold is_digit, is_newline, in_range. generalize (code a); intros n.
  rewrite andb_true_iff, !N.leb_le, N.eqb_neq. lia.
Qed.

Lemma digits_starts_in_space s rest :
  digits s -> starts_in Space (s ++ rest) = false.
Proof.
  intros [Hne Hd]. destruct s as [|a s]; [congruence|].
  simpl in *. apply andb_prop in Hd as [Ha _]. now apply digit_not_space.
Qed.

Lemma rstrip_id s :
  all_chars (fun a => negb (is_space a)) s = true -> rstrip s = s.
Proof.
  induction s as [|a s IH]; simpl; [reflexivity|].
  intros H. apply andb_prop in H as [Ha Hs]. rewrite (IH Hs).
  destruct s; [|reflexivity].
  now rewrite (negb_true_iff _) in Ha; rewrite Ha.
Qed.

Lemma all_chars_impl (p q : ascii -> bool) s :
  (forall a, p a = true -> q a = true) ->
  all_chars p s = true -> all_chars q s = true.
Proof.
  intros Hpq. induction s as [|a s IH]; simpl; [reflexivity|].
  intros H. apply andb_prop in H as [Ha Hs]. now rewrite (Hpq _ Ha), IH.
Qed.

Lemma strip_id s :
  all_chars (fun a => negb (is_space a)) s = true -> strip s = s.
Proof.
  intros H. unfold strip.
  assert (Hl : lstrip s = s).
  { destruct s as [|a s]; [reflexivity|]. simpl in *.
    apply andb_prop in H as [Ha _]. apply negb_true_iff in Ha.
    now rewrite Ha. }
  rewrite Hl. now apply rstrip_id.
Qed.

Lemma strip_digits s : all_chars is_digit s = true -> strip s = s.
Proof.
  intros Hd. apply strip_id. revert Hd. apply all_chars_impl.
  intros a Ha. now rewrite (digit_not_space _ Ha).
Qed.

Lemma int_digits_total s : forall acc seen,
  all_chars is_digit s = true -> s <> "" \/ seen = true ->
  exists v, int_digits acc seen s = Some v.
Proof.
  induction s as [|a s IH]; intros acc seen Hd Hne; simpl.
  - destruct Hne as [Hne | ->]; [congruence | eauto].
  - simpl in Hd. apply andb_prop in Hd as [Ha Hs]. rewrite Ha.
    apply IH; auto.
Qed.

Lemma int_of_digits s v :
  digits s -> int_digits 0 false s = Some v -> int s = Ok v.
Proof.
  intros [Hne Hd] Hv. unfold int. rewrite (strip_digits _ Hd).
  destruct s as [|a s]; [congruence|].
  assert (Ha : is_digit a = true) by (simpl in Hd; now apply andb_prop in Hd).
  destruct a as [[] [] [] [] [] [] [] []]; try discriminate Ha;
    rewrite Hv; f_equal; lia.
Qed.

(** [int] never fails on what [(\d+)] captures. *)
Lemma int_digits_ok s : digits s -> exists n, int s = Ok n.
Proof.
  intros H. pose proof H as [Hne Hd].
  destruct (int_digits_total s 0 false Hd (or_introl Hne)) as [v Hv].
  exists v. now apply int_of_digits.
Qed.

(** ** [int] reads back what [str] prints *)

Lemma int_digits_numeral u : forall acc,
  int_digits acc true (NilEmpty.string_of_uint u) = Some (uint_value acc u).
Proof.
  induction u; intros acc; simpl; try apply IHu. reflexivity.
Qed.

Lemma int_digits_numeral_start u :
  u <> Decimal.Nil ->
  int_digits 0 false (NilEmpty.string_of_uint u) = Some (uint_value 0 u).
Proof.
  destruct u; intros H; [congruence| ..]; simpl; apply int_digits_numeral.
Qed.

Lemma numeral_digits u :
  all_chars is_digit (NilEmpty.string_of_uint u) = true.
Proof. induction u; simpl; auto. Qed.

Lemma numeral_nonempty u :
  u <> Decimal.Nil -> NilEmpty.string_of_uint u <> "".
Proof. destruct u; simpl; congruence. Qed.

Lemma numeral_nil_zero u :
  u <> Decimal.Nil -> NilZero.string_of_uint u = NilEmpty.string_of_uint u.
Proof. destruct u; [congruence | reflexivity..]. Qed.

Lemma uint_value_acc u : forall p,
  Zpos (Pos.of_uint_acc u p) = uint_value (Zpos p) u.
Proof.
  induction u; intros p; cbn [Pos.of_uint_acc uint_value];
    [reflexivity | ..]; rewrite IHu; f_equal; lia.
Qed.

Lemma uint_value_of_uint u : Z.of_N (Pos.of_uint u) = uint_value 0 u.
Proof.
  induction u; cbn [Pos.of_uint uint_value Z.of_N];
    [reflexivity | assumption | ..]; apply uint_value_acc.
Qed.

Lemma uint_value_to_uint p : uint_value 0 (Pos.to_uint p) = Zpos p.
Proof. now rewrite <- uint_value_of_uint, Unsigned.of_to. Qed.

(** Every integer is denoted by a string, its decimal form ([int] and [str]
    as modelled, without the interpreter's cap on the number of digits). *)
Lemma int_str_of_int n : int (str_of_int n) = Ok n.
Proof.
  unfold str_of_int. destruct n as [|p|p]; [reflexivity | |]; simpl;
    pose proof (Unsigned.to_uint_nonnil p) as Hn;
    rewrite (numeral_nil_zero _ Hn).
  - apply int_of_digits.
    + split; [now apply numeral_nonempty | apply numeral_digits].
    + now rewrite (int_digits_numeral_start _ Hn), uint_value_to_uint.
  - unfold int. rewrite strip_id.
    + now rewrite (int_digits_numeral_start _ Hn), uint_value_to_uint.
    + simpl. generalize (numeral_digits (Pos.to_uint p)).
      apply all_chars_impl. intros a Ha. now rewrite (digit_not_space _ Ha).
Qed.

End Characters.

(* ================================================================== *)
(** * Stepping the matcher through a pattern *)

Section Steps.

Context {A : Type}.
Implicit Types (k : nat -> string -> list string -> option A).

Lemma run_seq_cons r rs pos s caps k :
  run (seq (r :: rs)) pos s caps k
  = run r pos s caps (fun p s' c => run (seq rs) p s' c k).
Proof. reflexivity. Qed.

Lemma run_lit l : forall pos s caps k,
  run (lit l) pos (l ++ s) caps k = k (pos + String.length l) s caps.
Proof.
  induction l as [|a l IH]; intros; simpl.
  - now rewrite Nat.add_0_r.
  - rewrite Ascii.eqb_refl, IH. now rewrite Nat.add_succ_comm.
Qed.

(** A greedy repetition first tries the whole run of matching characters. *)
Lemma rep_greedy_max c w :
  forall lo pos s' (k : nat -> string -> option A) x,
  all_chars (mem c) w = true -> starts_in c s' = false ->
  lo <= String.length w ->
  k (pos + String.length w) s' = Some x ->
  rep true c lo None pos (w ++ s') k = Some x.
Proof.
  induction w as [|a w IH]; intros lo pos s' k x Hw Hs Hlo Hk;
    rewrite rep_eq; cbv zeta.
  - simpl in *. assert (lo = 0) as -> by lia. rewrite Nat.add_0_r in Hk.
    destruct s' as [|b s']; simpl in *; [assumption|]. now rewrite Hs.
  - simpl in *. apply andb_prop in Hw as [Ha Hw]. rewrite Ha. simpl.
    erewrite IH; eauto; [lia|]. now rewrite Nat.add_succ_comm.
Qed.

Lemma run_plus_max c w pos s' caps k x :
  all_chars (mem c) w = true -> w <> "" -> starts_in c s' = false ->
  k (pos + String.length w) s' caps = Some x ->
  run (plus c) pos (w ++ s') caps k = Some x.
Proof.
  intros Hw Hne Hs Hk. simpl. apply rep_greedy_max; auto.
  destruct w; [congruence | simpl; lia].
Qed.

Lemma run_group_plus_max c w pos s' caps k x :
  all_chars (mem c) w = true -> w <> "" -> starts_in c s' = false ->
  k (pos + String.length w) s' (caps ++ [w])%list = Some x ->
  run (Grp (plus c)) pos (w ++ s') caps k = Some x.
Proof.
  intros Hw Hne Hs Hk. simpl. apply rep_greedy_max; auto.
  - destruct w; [congruence | simpl; lia].
  - now rewrite Nat.add_comm, Nat.add_sub, take_append, Nat.add_comm.
Qed.

End Steps.

(* ================================================================== *)
(** * Reading an accepted word back from a pattern *)

Section Accepted.

Lemma matches_seq_cons r rs pos w caps caps' :
  matches (seq (r :: rs)) pos w caps caps' <->
  exists w1 w2 caps1,
    w = w1 ++ w2 /\ matches r pos w1 caps caps1
    /\ matches (seq rs) (pos + String.length w1) w2 caps1 caps'.
Proof. reflexivity. Qed.

Lemma matches_seq_nil pos w caps caps' :
  matches (seq []) pos w caps caps' <-> w = "" /\ caps' = caps.
Proof. reflexivity. Qed.

Lemma matches_lit l : forall pos w caps caps',
  matches (lit l) pos w caps caps' <-> w = l /\ caps' = caps.
Proof.
  induction l as [|a l IH]; intros; simpl; [reflexivity|].
  split.
  - intros (w1 & w2 & caps1 & -> & [(b & -> & Hb) ->] & M).
    apply IH in M as [-> ->]. apply Ascii.eqb_eq in Hb as ->. auto.
  - intros [-> ->]. exists (String a ""), l, caps.
    repeat split; [|now apply IH]. exists a. now rewrite Ascii.eqb_refl.
Qed.

Lemma matches_group_rep g lo hi c pos w caps caps' :
  matches (Grp (Rep g lo hi c)) pos w caps caps' <->
  all_chars (mem c) w = true /\ lo <= String.length w
  /\ within hi (String.length w) /\ caps' = (caps ++ [w])%list.
Proof.
  simpl. split.
  - intros (caps1 & (Hw & Hlo & Hhi & ->) & ->). auto.
  - intros (Hw & Hlo & Hhi & ->). exists caps. auto.
Qed.

Lemma matches_rep g lo hi c pos w caps caps' :
  matches (Rep g lo hi c) pos w caps caps' <->
  all_chars (mem c) w = true /\ lo <= String.length w
  /\ within hi (String.length w) /\ caps' = caps.
Proof. reflexivity. Qed.

Lemma matches_bol pos w caps caps' :
  matches Bol pos w caps caps' <-> pos = 0 /\ w = "" /\ caps' = caps.
Proof. reflexivity. Qed.

(** A run of [p]-characters ended by a character outside [p] can be read
    off a string in one way only. *)
Lemma span_unique p u1 : forall u2 a1 v1 a2 v2,
  all_chars p u1 = true -> all_chars p u2 = true ->
  p a1 = false -> p a2 = false ->
  u1 ++ String a1 v1 = u2 ++ String a2 v2 ->
  u1 = u2 /\ a1 = a2 /\ v1 = v2.
Proof.
  induction u1 as [|b u1 IH]; intros [|b' u2] a1 v1 a2 v2 H1 H2 Ha1 Ha2 E;
    simpl in *.
  - now injection E as -> ->.
  - injection E as E1 E2. apply andb_prop in H2 as [Hb _]. congruence.
  - injection E as E1 E2. apply andb_prop in H1 as [Hb _]. congruence.
  - injection E as -> E. apply andb_prop in H1 as [_ H1].
    apply andb_prop in H2 as [_ H2].
    destruct (IH _ _ _ _ _ H1 H2 Ha1 Ha2 E) as (-> & -> & ->). auto.
Qed.

End Accepted.

(** Unfolds the definition of acceptance along a pattern given as a [seq]. *)
Ltac read_pattern :=
  unfold plus, plus_lazy, exactly, between, opt in *;
  repeat match goal with
    | H : matches (seq (_ :: _)) _ _ _ _ |- _ =>
        apply matches_seq_cons in H as (? & ? & ? & ? & ? & H)
    | H : matches (seq []) _ _ _ _ |- _ =>
        apply matches_seq_nil in H as [? ?]
    | H : matches (lit _) _ _ _ _ |- _ =>
        apply matches_lit in H as [? ?]
    | H : matches (Grp (Rep _ _ _ _)) _ _ _ _ |- _ =>
        apply matches_group_rep in H as (? & ? & ? & ?)
    | H : matches (Rep _ _ _ _) _ _ _ _ |- _ =>
        apply matches_rep in H as (? & ? & ? & ?)
    | H : matches Bol _ _ _ _ |- _ =>
        apply matches_bol in H as (? & ? & ?)
    end;
  subst.

(** Builds an acceptance along a [seq], one word at a time. *)
Ltac accept w :=
  apply matches_seq_cons; exists w; do 2 eexists;
  split; [reflexivity|]; split.

Ltac number_is_digits :=
  split;
  [ match goal with
    | H : 1 <= String.length ?s |- ?s <> "" =>
        destruct s; [simpl in H; lia | discriminate]
    end
  | assumption ].

Ltac flatten :=
  repeat first [rewrite append_assoc | rewrite append_empty_r
               | progress cbn [append]].

(* ================================================================== *)
(** * The filename patterns *)

Section Filenames.

(** After the leading number, [sol_pattern] and [understanding_pattern]
    want a hyphen and [guide_pattern] and [subject_guide_pattern] a dot. *)
Lemma number_then b l rs N a v :
  all_chars is_digit N = true -> is_digit a = false -> is_digit b = false ->
  prefix_accepted (seq (Grp (plus Digit) :: lit (String b l) :: rs))
    (N ++ String a v) ->
  a = b.
Proof.
  intros HN Ha Hb (w & rest & caps & E & M). read_pattern.
  simpl in E. rewrite append_assoc in E. simpl in E.
  match goal with
  | Hd : all_chars (mem Digit) ?d = true |- _ =>
      now destruct (span_unique is_digit N d a _ b _ HN Hd Ha Hb E)
        as (_ & ? & _)
  end.
Qed.

Lemma sol_pattern_rejects N M :
  digits N -> re_match sol_pattern (grade_guide_name N M) = None.
Proof.
  intros [_ HN].
  destruct (re_match sol_pattern _) eqn:E; [exfalso | reflexivity].
  assert (P : prefix_accepted sol_pattern (grade_guide_name N M)).
  { apply re_match_iff. now rewrite E. }
  apply (number_then "-" "" _ N ".") in P; auto; discriminate.
Qed.

Lemma guide_pattern_groups N M :
  digits N -> digits M ->
  re_match guide_pattern (grade_guide_name N M) = Some [N; M].
Proof.
  intros [HN dN] [HM dM].
  unfold re_match, guide_pattern, grade_guide_name.
  change (N ++ ". Grade " ++ M ++ " Mathematics Instructional Guide.docx")
    with (N ++ "." ++ " " ++ "Grade" ++ " " ++ M
            ++ " Mathematics Instructional Guide.docx").
  rewrite run_seq_cons.
  apply run_group_plus_max; [assumption | assumption | reflexivity |].
  rewrite run_seq_cons, run_lit.
  rewrite run_seq_cons.
  apply run_plus_max; [reflexivity | discriminate | reflexivity |].
  rewrite run_seq_cons, run_lit.
  rewrite run_seq_cons.
  apply run_plus_max; [reflexivity | discriminate | |].
  { now apply digits_starts_in_space. }
  rewrite run_seq_cons.
  apply run_group_plus_max; [assumption | assumption | reflexivity |].
  reflexivity.
Qed.

Lemma positive_length s : 1 <= String.length s -> s <> "".
Proof. destruct s; simpl; [lia | discriminate]. Qed.

Lemma length_positive s : s <> "" -> 1 <= String.length s.
Proof. destruct s; simpl; [congruence | lia]. Qed.

Lemma digits_any N :
  all_chars is_digit N = true -> all_chars (mem Dot) N = true.
Proof.
  apply all_chars_impl. intros a Ha. simpl.
  now rewrite (digit_not_newline _ Ha).
Qed.

(** The subject-guide pattern accepts the same names, reading
    ["Grade M"] as the subject. *)
Lemma subject_guide_pattern_accepts N M :
  digits N -> digits M ->
  prefix_accepted subject_guide_pattern (grade_guide_name N M).
Proof.
  intros [HN dN] [HM dM].
  exists (grade_guide_name N M), "", [N; "Grade " ++ M].
  split; [now rewrite append_empty_r|].
  unfold subject_guide_pattern, grade_guide_name, plus, plus_lazy.
  change (N ++ ". Grade " ++ M ++ " Mathematics Instructional Guide.docx")
    with (N ++ "." ++ " " ++ ("Grade " ++ M) ++ " " ++ "Mathematics" ++ " "
            ++ "Instructional" ++ " " ++ "Guide.docx" ++ "").
  accept N.
  { apply matches_group_rep. repeat split; auto using length_positive. }
  accept ".". { now apply matches_lit. }
  accept " ". { now apply matches_rep. }
  accept ("Grade " ++ M).
  { apply matches_group_rep. repeat split.
    - rewrite all_chars_append, (digits_any _ dM). reflexivity.
    - simpl. lia. }
  accept " ". { now apply matches_rep. }
  accept "Mathematics". { now apply matches_lit. }
  accept " ". { now apply matches_rep. }
  accept "Instructional". { now apply matches_lit. }
  accept " ". { now apply matches_rep. }
  accept "Guide.docx". { now apply matches_lit. }
  now apply matches_seq_nil.
Qed.

(** ** What the groups of each pattern hold *)

Lemma sol_pattern_shape f caps :
  re_match sol_pattern f = Some caps ->
  exists num subject year, caps = [num; subject; year] /\ digits num.
Proof.
  intros H. apply re_match_groups in H as (w & rest & -> & M).
  unfold sol_pattern in M. read_pattern.
  do 3 eexists. split; [reflexivity | number_is_digits].
Qed.

Lemma guide_pattern_shape f caps :
  re_match guide_pattern f = Some caps ->
  exists num grade, caps = [num; grade] /\ digits num /\ digits grade.
Proof.
  intros H. apply re_match_groups in H as (w & rest & -> & M).
  unfold guide_pattern in M. read_pattern.
  do 2 eexists. split; [reflexivity | split; number_is_digits].
Qed.

Lemma understanding_pattern_shape f caps :
  re_match understanding_pattern f = Some caps ->
  exists num subject, caps = [num; subject] /\ digits num.
Proof.
  intros H. apply re_match_groups in H as (w & rest & -> & M).
  unfold understanding_pattern in M. read_pattern.
  do 2 eexists. split; [reflexivity | number_is_digits].
Qed.

Lemma subject_guide_pattern_shape f caps :
  re_match subject_guide_pattern f = Some caps ->
  exists num subject, caps = [num; subject] /\ digits num.
Proof.
  intros H. apply re_match_groups in H as (w & rest & -> & M).
  unfold subject_guide_pattern in M. read_pattern.
  do 2 eexists. split; [reflexivity | number_is_digits].
Qed.

Lemma get_grade_level_total num subject :
  digits num -> exists g, _get_grade_level num subject = Ok g.
Proof.
  intros H. destruct (int_digits_ok _ H) as [n Hn].
  unfold _get_grade_level. rewrite Hn. simpl.
  destruct (_ && _)%bool; eauto.
Qed.

Lemma rejected r s : re_match r s = None -> ~ prefix_accepted r s.
Proof. intros E P. apply re_match_iff in P. contradiction. Qed.

Lemma found r s caps : re_match r s = Some caps -> prefix_accepted r s.
Proof. intros E. apply re_match_iff. now rewrite E. Qed.

Lemma not_accepted r s : re_fullmatch r s = None -> ~ accepted r s.
Proof. intros E P. apply re_fullmatch_iff in P. contradiction. Qed.

End Filenames.

(** C1: every filename "N. Grade M Mathematics Instructional Guide.docx",
    with N and M runs of digits, is classified by the grade-guide pattern:
    the type is "Instructional Guide", the subject "Mathematics" and the
    grade level the literal "Grade M", whatever the number N would resolve
    to.  Both the grade-guide and the subject-guide pattern accept such a
    name; the grade-guide pattern is tried first. *)
Theorem grade_guide_takes_precedence (N M : string) :
  digits N -> digits M ->
  _parse_filename (grade_guide_name N M)
  = Ok [("type", "Instructional Guide");
        ("number", N);
        ("grade", M);
        ("subject", "Mathematics");
        ("grade_level", "Grade " ++ M)]
  /\ prefix_accepted guide_pattern (grade_guide_name N M)
  /\ prefix_accepted subject_guide_pattern (grade_guide_name N M)
  /\ _parse_filename "1. Grade 1 Mathematics Instructional Guide.docx"
     = Ok [("type", "Instructional Guide");
           ("number", "1");
           ("grade", "1");
           ("subject", "Mathematics");
           ("grade_level", "Grade 1")].
Proof.
  intros HN HM.
  pose proof (guide_pattern_groups N M HN HM) as G.
  split; [|split; [|split]].
  - unfold _parse_filename.
    now rewrite (sol_pattern_rejects N M HN), G.
  - apply re_match_iff. now rewrite G.
  - now apply subject_guide_pattern_accepts.
  - reflexivity.
Qed.

Lemma grade_guide_takes_precedence_witness :
  digits "12" /\ digits "7"
  /\ _parse_filename (grade_guide_name "12" "7")
     = Ok [("type", "Instructional Guide");
           ("number", "12");
           ("grade", "7");
           ("subject", "Mathematics");
           ("grade_level", "Grade 7")].
Proof.
  assert (H12 : digits "12") by (split; [discriminate | reflexivity]).
  assert (H7 : digits "7") by (split; [discriminate | reflexivity]).
  split; [exact H12 | split; [exact H7 |]].
  apply (grade_guide_takes_precedence "12" "7" H12 H7).
Defined.

(** With [int] as modelled, classification always returns a dictionary; its
    type is "Unknown" exactly when no pattern accepts a prefix of the
    filename. *)
Lemma parse_filename_total (filename : string) :
  exists md,
    _parse_filename filename = Ok md
    /\ (lookup "type" md = Some "Unknown"
        <-> no_pattern_accepts_prefix filename)
    /\ (lookup "type" md = Some "Unknown" ->
        md = [("type", "Unknown"); ("filename", filename)]).
Proof.
  unfold _parse_filename, no_pattern_accepts_prefix.
  destruct (re_match sol_pattern filename) as [caps|] eqn:E1.
  { pose proof (found _ _ _ E1) as P.
    apply sol_pattern_shape in E1 as (num & subject & year & -> & Hn).
    destruct (get_grade_level_total num subject Hn) as [g ->].
    eexists; split; [reflexivity|]. simpl.
    split; [split; [discriminate | tauto] | discriminate]. }
  apply rejected in E1.
  destruct (re_match guide_pattern filename) as [caps|] eqn:E2.
  { pose proof (found _ _ _ E2) as P.
    apply guide_pattern_shape in E2 as (num & grade & -> & Hn & _).
    eexists; split; [reflexivity|]. simpl.
    split; [split; [discriminate | tauto] | discriminate]. }
  apply rejected in E2.
  destruct (re_match understanding_pattern filename) as [caps|] eqn:E3.
  { pose proof (found _ _ _ E3) as P.
    apply understanding_pattern_shape in E3 as (num & subject & -> & Hn).
    destruct (get_grade_level_total num subject Hn) as [g ->].
    eexists; split; [reflexivity|]. simpl.
    split; [split; [discriminate | tauto] | discriminate]. }
  apply rejected in E3.
  destruct (re_match subject_guide_pattern filename) as [caps|] eqn:E4.
  { pose proof (found _ _ _ E4) as P.
    apply subject_guide_pattern_shape in E4 as (num & subject & -> & Hn).
    destruct (get_grade_level_total num subject Hn) as [g ->].
    eexists; split; [reflexivity|]. simpl.
    split; [split; [discriminate | tauto] | discriminate]. }
  apply rejected in E4.
  eexists; split; [reflexivity|]. simpl. tauto.
Qed.

(** C2, as the code has it: the type is "Unknown" exactly when no filename
    pattern accepts a prefix of the filename, and then the dictionary holds
    the type and the filename and nothing else. *)
Theorem unknown_iff_no_prefix_accepted (filename : string) :
  (_parse_filename filename = Ok [("type", "Unknown"); ("filename", filename)]
   <-> no_pattern_accepts_prefix filename)
  /\ (forall md,
        _parse_filename filename = Ok md ->
        (lookup "type" md = Some "Unknown"
         <-> no_pattern_accepts_prefix filename)
        /\ (lookup "type" md = Some "Unknown" ->
            md = [("type", "Unknown"); ("filename", filename)])).
Proof.
  destruct (parse_filename_total filename) as (md & E & Hiff & Honly).
  split.
  - rewrite E. split.
    + intros [= ->]. now apply Hiff.
    + intros H. f_equal. now apply Honly, Hiff.
  - intros md' E'. rewrite E in E'. injection E' as <-. auto.
Qed.

(** C2, as stated, fails: no pattern accepts [backup_name] as a whole, yet it
    is classified as "Approved SOL Standards", for the text before ".bak"
    is accepted and [re.match] does not look further. *)
Lemma trailing_text_is_classified :
  ~ some_pattern_accepts_exactly backup_name
  /\ _parse_filename backup_name
     = Ok [("type", "Approved SOL Standards");
           ("number", "1");
           ("subject", "Algebra");
           ("year", "2023");
           ("grade_level", "Grade 1")].
Proof.
  split; [|vm_compute; reflexivity].
  intros [H | [H | [H | H]]]; revert H; apply not_accepted;
    vm_compute; reflexivity.
Qed.

(** C3: when [num] denotes the integer [n], the grade level is "Grade n" for
    1 <= n <= 8, the entry of the table for 9 <= n <= 18, and the subject
    itself for every other [n]; no error is raised. *)
Theorem get_grade_level_cases (num subject : string) (n : Z) :
  int num = Ok n ->
  ((1 <= n <= 8)%Z ->
     _get_grade_level num subject = Ok ("Grade " ++ str_of_int n))
  /\ (n = 9%Z -> _get_grade_level num subject = Ok "Algebra 1")
  /\ (n = 10%Z -> _get_grade_level num subject = Ok "Geometry")
  /\ (n = 11%Z -> _get_grade_level num subject = Ok "AFDA")
  /\ (n = 12%Z -> _get_grade_level num subject = Ok "Algebra 2")
  /\ (n = 13%Z -> _get_grade_level num subject = Ok "Trigonometry")
  /\ (n = 14%Z ->
      _get_grade_level num subject = Ok "Computational Mathematics")
  /\ (n = 15%Z ->
      _get_grade_level num subject = Ok "Probability & Statistics")
  /\ (n = 16%Z -> _get_grade_level num subject = Ok "Discrete Mathematics")
  /\ (n = 17%Z -> _get_grade_level num subject = Ok "Mathematical Analysis")
  /\ (n = 18%Z -> _get_grade_level num subject = Ok "Data Science")
  /\ ((n < 1 \/ 18 < n)%Z -> _get_grade_level num subject = Ok subject)
  /\ _get_grade_level "5" "X" = Ok "Grade 5"
  /\ _get_grade_level "11" "X" = Ok "AFDA"
  /\ _get_grade_level "99" "Biology" = Ok "Biology".
Proof.
  intros H. unfold _get_grade_level at 1 2 3 4 5 6 7 8 9 10 11 12.
  rewrite H. simpl bind.
  repeat split; try (intros ->; reflexivity).
  - intros [H1 H8].
    destruct (Z.leb_spec 1 n); [|lia]. destruct (Z.leb_spec n 8); [|lia].
    reflexivity.
  - intros Hout.
    assert (E : ((1 <=? n)%Z && (n <=? 8)%Z)%bool = false).
    { apply andb_false_iff. rewrite !Z.leb_gt. lia. }
    rewrite E. f_equal. unfold subject_map, get.
    repeat match goal with
           | |- context [(n =? ?k)%Z] =>
               destruct (Z.eqb_spec n k); [lia|]
           end.
    reflexivity.
Qed.

Lemma get_grade_level_cases_witness :
  int "0011" = Ok 11%Z /\ _get_grade_level "0011" "X" = Ok "AFDA".
Proof.
  split; [reflexivity|].
  destruct (get_grade_level_cases "0011" "X" 11 eq_refl)
    as (_ & _ & _ & H & _).
  exact (H eq_refl).
Defined.

(* ================================================================== *)
(** * The standard-code recognizer *)

Section Recognizer.

Lemma letter_pattern_accepts text :
  prefix_accepted letter_pattern text <-> letter_code text.
Proof.
  unfold letter_pattern. split.
  - intros (w & rest & caps & -> & M). read_pattern.
    match goal with
    | H1 : all_chars (mem Upper) ?us = true,
      H2 : all_chars (mem Digit) ?ds = true |- _ =>
        exists us, ds, rest
    end.
    flatten. repeat split; auto. now apply positive_length.
  - intros (us & ds & rest & -> & [Hlo Hhi] & Hus & Hne & Hds).
    exists (us ++ "." ++ ds ++ ""), rest, []. split; [now flatten|].
    accept "". { now apply matches_bol. }
    accept us. { now apply matches_rep. }
    accept ".". { now apply matches_lit. }
    accept ds.
    { apply matches_rep. repeat split; auto using length_positive. }
    now apply matches_seq_nil.
Qed.

Lemma optional_lower_iff s :
  optional_lower s <->
  all_chars is_lower s = true /\ String.length s <= 1.
Proof.
  split.
  - intros [-> | (a & -> & Ha)]; simpl; [auto | rewrite Ha; auto].
  - intros [Hl Hn]. destruct s as [|a [|b s]]; simpl in *; try lia.
    + now left.
    + right. exists a. rewrite andb_true_r in Hl. auto.
Qed.

Lemma number_pattern_accepts text :
  prefix_accepted number_pattern text <-> dotted_number text.
Proof.
  unfold number_pattern. split.
  - intros (w & rest & caps & -> & M). read_pattern.
    match goal with
    | H1 : all_chars (mem Digit) ?d1 = true,
      H2 : all_chars (mem Digit) ?d2 = true,
      H3 : all_chars (mem Lower) ?l = true |- _ =>
        exists d1, d2, l, rest; flatten; split; [reflexivity|]
    end.
    repeat split; auto using positive_length.
    apply optional_lower_iff. simpl in *. auto.
  - intros (d1 & d2 & l & rest & -> & [N1 H1] & [N2 H2] & Hl).
    apply optional_lower_iff in Hl as [Hl Hn].
    exists (d1 ++ "." ++ d2 ++ l ++ ""), rest, []. split; [now flatten|].
    accept "". { now apply matches_bol. }
    accept d1.
    { apply matches_rep. repeat split; auto using length_positive. }
    accept ".". { now apply matches_lit. }
    accept d2.
    { apply matches_rep. repeat split; auto using length_positive. }
    accept l. { apply matches_rep. repeat split; auto; lia. }
    now apply matches_seq_nil.
Qed.

Lemma is_standard_accepts text :
  _is_standard text = true <->
  prefix_accepted letter_pattern text \/ prefix_accepted number_pattern text.
Proof.
  unfold _is_standard, standard_patterns, first_match.
  fold letter_pattern number_pattern.
  rewrite <- !re_match_iff.
  destruct (re_match letter_pattern text).
  { split; [intros _; left; discriminate | reflexivity]. }
  destruct (re_match number_pattern text).
  { split; [intros _; right; discriminate | reflexivity]. }
  split; [discriminate | intros [H|H]; now elim H].
Qed.

Lemma prefix_accepted_extend r text tail :
  prefix_accepted r text -> prefix_accepted r (text ++ tail).
Proof.
  intros (w & rest & caps & -> & M).
  exists w, (rest ++ tail), caps. now rewrite append_assoc.
Qed.

End Recognizer.

(** C7: a text is recognised as a standard exactly when it starts with one
    to four capitals, a dot and digits, or with digits, a dot, digits and
    possibly one small letter; whatever follows a recognised text leaves it
    recognised. *)
Theorem is_standard_prefix (text : string) :
  (_is_standard text = true <-> letter_code text \/ dotted_number text)
  /\ (forall tail,
        _is_standard text = true -> _is_standard (text ++ tail) = true)
  /\ _is_standard "1.1 Count to ten" = true
  /\ _is_standard "G.5 Solve equations" = true
  /\ _is_standard "Introduction to the strand" = false.
Proof.
  split; [|split; [|repeat split]].
  - rewrite is_standard_accepts, letter_pattern_accepts,
      number_pattern_accepts. reflexivity.
  - intros tail. rewrite !is_standard_accepts.
    intros [H|H]; [left | right]; now apply prefix_accepted_extend.
Qed.

(* ================================================================== *)
(** * The content extractor *)

Section Extractor.

Lemma para_step_eq paragraphs standards para :
  para_step (paragraphs, standards) para =
    if retained para
    then ((paragraphs ++ [entry para])%list,
          if _is_standard (text (entry para))
          then (standards ++ [text (entry para)])%list
          else standards)
    else (paragraphs, standards).
Proof.
  unfold para_step, retained, entry. simpl.
  destruct (truthy _); [|reflexivity]. now destruct (_is_standard _).
Qed.

Lemma para_loop ps : forall paragraphs standards,
  fold_left para_step ps (paragraphs, standards)
  = ((paragraphs ++ map entry (filter retained ps))%list,
     (standards
        ++ filter _is_standard
             (map text (map entry (filter retained ps))))%list).
Proof.
  induction ps as [|p ps IH]; intros paragraphs standards.
  - simpl. now rewrite !app_nil_r.
  - cbn [fold_left filter]. rewrite para_step_eq.
    destruct (retained p) eqn:R; [|apply IH].
    cbn [map filter].
    destruct (_is_standard (text (entry p))) eqn:S;
      rewrite IH, <- !List.app_assoc; reflexivity.
Qed.

Lemma row_step_eq table_data row :
  row_step table_data row =
    if any (trimmed_row row)
    then (table_data ++ [trimmed_row row])%list
    else table_data.
Proof. reflexivity. Qed.

Lemma row_loop rs : forall table_data,
  fold_left row_step rs table_data
  = (table_data ++ filter any (map trimmed_row rs))%list.
Proof.
  induction rs as [|r rs IH]; intros table_data.
  - simpl. now rewrite app_nil_r.
  - cbn [fold_left map filter]. rewrite row_step_eq.
    destruct (any (trimmed_row r)); rewrite IH;
      [now rewrite <- List.app_assoc | reflexivity].
Qed.

Lemma table_step_eq tables table :
  table_step tables table = (tables ++ contribution table)%list.
Proof.
  unfold table_step, contribution. rewrite row_loop. simpl.
  fold (trimmed_table table).
  destruct (trimmed_table table); simpl; [now rewrite app_nil_r | reflexivity].
Qed.

Lemma table_loop ts : forall tables,
  fold_left table_step ts tables
  = (tables ++ flat_map contribution ts)%list.
Proof.
  induction ts as [|t ts IH]; intros tables.
  - simpl. now rewrite app_nil_r.
  - cbn [fold_left flat_map]. rewrite table_step_eq, IH.
    now rewrite <- List.app_assoc.
Qed.

Lemma contributions ts :
  flat_map contribution ts = filter has_rows (map trimmed_table ts).
Proof.
  induction ts as [|t ts IH]; [reflexivity|].
  cbn [flat_map map filter]. unfold contribution at 1.
  destruct (has_rows (trimmed_table t)); now rewrite IH.
Qed.

(** The loops of [_extract_content] in closed form. *)
Lemma extract_content_eq doc :
  _extract_content doc =
    let paragraphs := map entry (filter retained (doc_paragraphs doc)) in
    let tables := flat_map contribution (doc_tables doc) in
    {| paragraphs := paragraphs;
       tables := tables;
       identified_standards := filter _is_standard (map text paragraphs);
       total_paragraphs := List.length paragraphs;
       total_tables := List.length tables |}.
Proof.
  unfold _extract_content. rewrite para_loop, table_loop. reflexivity.
Qed.

End Extractor.

(** C4: the two totals of the extracted content are the lengths of its
    lists of paragraphs and of tables. *)
Theorem content_totals (doc : Document) :
  total_paragraphs (_extract_content doc)
  = List.length (paragraphs (_extract_content doc))
  /\ total_tables (_extract_content doc)
     = List.length (tables (_extract_content doc)).
Proof. rewrite extract_content_eq. split; reflexivity. Qed.

(** C5: the stored paragraphs are the trimmed texts (with their styles) of
    the paragraphs whose trimmed text is not empty, in document order, blank
    paragraphs being neither stored nor counted; the identified standards are
    the stored texts that the recognizer accepts, in the same order and with
    repetitions. *)
Theorem paragraphs_and_standards (doc : Document) :
  paragraphs (_extract_content doc)
  = map entry (filter retained (doc_paragraphs doc))
  /\ total_paragraphs (_extract_content doc)
     = List.length (filter retained (doc_paragraphs doc))
  /\ identified_standards (_extract_content doc)
     = filter _is_standard (map text (paragraphs (_extract_content doc))).
Proof.
  rewrite extract_content_eq. cbn.
  repeat split. now rewrite length_map.
Qed.

(** C6: each table gives its rows with every cell trimmed, the rows without
    a non-empty cell left out; a table left without rows adds nothing to the
    tables nor to their count, so that no stored table is empty. *)
Theorem tables_extracted (doc : Document) :
  tables (_extract_content doc)
  = filter has_rows (map trimmed_table (doc_tables doc))
  /\ total_tables (_extract_content doc)
     = List.length (filter has_rows (map trimmed_table (doc_tables doc)))
  /\ ~ In [] (tables (_extract_content doc))
  /\ (forall paras before table after,
        tables (_extract_content
                  {| doc_paragraphs := paras;
                     doc_tables := before ++ table :: after |})
        = (tables (_extract_content
                     {| doc_paragraphs := paras; doc_tables := before |})
           ++ (if has_rows (trimmed_table table)
               then [trimmed_table table] else [])
           ++ tables (_extract_content
                        {| doc_paragraphs := paras; doc_tables := after |}))%list
        /\ total_tables (_extract_content
                  {| doc_paragraphs := paras;
                     doc_tables := before ++ table :: after |})
           = total_tables (_extract_content
                     {| doc_paragraphs := paras; doc_tables := before |})
             + (if has_rows (trimmed_table table) then 1 else 0)
             + total_tables (_extract_content
                     {| doc_paragraphs := paras; doc_tables := after |})).
Proof.
  split; [|split; [|split]].
  - rewrite extract_content_eq. cbn. apply contributions.
  - rewrite extract_content_eq. cbn. now rewrite contributions.
  - rewrite extract_content_eq. cbn. rewrite contributions.
    intros H. apply filter_In in H as [_ H]. discriminate.
  - intros paras before table after. rewrite !extract_content_eq. cbn.
    rewrite flat_map_app. cbn [flat_map]. fold (contribution table).
    split; [reflexivity|].
    rewrite !length_app. unfold contribution.
    destruct (has_rows (trimmed_table table)); simpl; lia.
Qed.

(* ================================================================== *)
(** * The validator *)

Section Validator.

Lemma decides_bind m b k c :
  decides m b -> decides k c -> decides (m ;;; k) (b && c).
Proof.
  destruct m as [[]|e]; simpl.
  - intros ->. auto.
  - intros [-> He]. auto.
Qed.

Lemma decides_assert_in k v : decides (assert_in k v) (passes k v).
Proof.
  unfold assert_in, passes.
  destruct v; simpl; auto;
    match goal with |- context [assert ?b] => destruct b end; simpl; auto.
Qed.

Lemma decides_for_each {A} (body : A -> result unit) (p : A -> bool) l :
  (forall x, decides (body x) (p x)) ->
  decides (for_each body l) (forallb p l).
Proof.
  intros H. induction l as [|x l IH]; simpl; [reflexivity|].
  now apply decides_bind.
Qed.

Lemma has_key_lookup {V} k (d : list (string * V)) :
  has_key k d = true -> exists v, lookup k d = Some v.
Proof.
  induction d as [|[k' v] d IH]; simpl; [discriminate|].
  destruct (String.eqb k k'); simpl; eauto.
Qed.

Lemma decides_check_standard t :
  decides (check_standard t) (standard_passes t).
Proof.
  unfold check_standard, standard_passes. rewrite <- andb_assoc.
  repeat apply decides_bind; apply decides_assert_in.
Qed.

Lemma decides_check_strand s : decides (check_strand s) (strand_passes s).
Proof.
  unfold check_strand, strand_passes, assert_list_at, assert_in.
  destruct s as [| | | | |l|d]; try (simpl; auto; fail).
  - simpl.
    repeat match goal with
           | |- context [assert ?b] => destruct b; simpl; auto
           end.
  - simpl.
    repeat match goal with
           | |- context [assert ?b] => destruct b; simpl; auto
           end.
  - cbn [contains bind object_with list_at getitem forallb].
    destruct (has_key "strand_code" d); [|simpl; auto].
    destruct (has_key "strand_name" d); [|simpl; auto].
    destruct (has_key "standards" d) eqn:K; [|simpl; auto].
    apply has_key_lookup in K as [v K]. rewrite K. simpl.
    destruct v; simpl; auto.
    apply (decides_for_each check_standard standard_passes),
      decides_check_standard.
Qed.

Lemma decides_checks data : decides (checks data) (document_passes data).
Proof.
  unfold checks, document_passes, assert_list_at, assert_in.
  destruct data as [| | | | |l|d]; try (simpl; auto; fail).
  - simpl.
    repeat match goal with
           | |- context [assert ?b] => destruct b; simpl; auto
           end.
  - simpl.
    repeat match goal with
           | |- context [assert ?b] => destruct b; simpl; auto
           end.
  - cbn [contains bind object_with list_at getitem forallb].
    destruct (has_key "document_metadata" d); [|simpl; auto].
    destruct (has_key "strands" d) eqn:K; [|simpl; auto].
    apply has_key_lookup in K as [v K]. rewrite K. simpl.
    destruct v; simpl; auto.
    apply (decides_for_each check_strand strand_passes),
      decides_check_strand.
Qed.

(** [validate_output] never raises, and says whether the document passes
    the checks. *)
Lemma validate_output_eq data :
  validate_output data = Ok (document_passes data).
Proof.
  unfold validate_output. pose proof (decides_checks data) as H.
  destruct (checks data) as [[]|e]; simpl in H.
  - now rewrite H.
  - destruct H as [-> He]. destruct e; simpl in He; congruence.
Qed.

Lemma forallb_impl {A} (p q : A -> bool) l :
  (forall x, p x = true -> q x = true) ->
  forallb p l = true -> forallb q l = true.
Proof.
  intros H. rewrite !forallb_forall. auto.
Qed.

(** On an object, [in] is the presence of the key. *)
Lemma object_passes standard :
  object_with standard_keys standard = true ->
  standard_passes standard = true.
Proof.
  destruct standard; try discriminate.
  unfold standard_passes, passes. simpl.
  rewrite !andb_true_iff. tauto.
Qed.

Lemma standard_passes_object d :
  standard_passes (VDict d) = true ->
  has_key "standard_id" d = true /\ has_key "standard_statement" d = true
  /\ has_key "knowledge_and_skills" d = true.
Proof.
  unfold standard_passes, passes. simpl.
  rewrite !andb_true_iff. tauto.
Qed.




(** ** Replacing what is stored under a key *)

Lemma has_key_update k k' f d : has_key k (update k' f d) = has_key k d.
Proof.
  unfold has_key, update.
  induction d as [|[k0 v] d IH]; simpl; [reflexivity|].
  rewrite IH. now destruct (String.eqb k' k0).
Qed.

Lemma lookup_update k f d :
  lookup k (update k f d) = option_map f (lookup k d).
Proof.
  unfold update. induction d as [|[k0 v] d IH]; simpl; [reflexivity|].
  destruct (String.eqb k k0) eqn:E; simpl; rewrite E;
    [reflexivity | apply IH].
Qed.

Lemma object_with_on_key keys k f v :
  object_with keys (on_key k f v) = object_with keys v.
Proof.
  destruct v; try reflexivity. simpl.
  induction keys as [|k0 keys IH]; simpl; [reflexivity|].
  now rewrite has_key_update, IH.
Qed.

Lemma list_at_on_key k h v :
  list_at k (on_key k (on_items h) v) = option_map (map h) (list_at k v).
Proof.
  destruct v; try reflexivity. simpl. rewrite lookup_update.
  destruct (lookup k d) as [[]|]; reflexivity.
Qed.

Lemma forallb_map_eq {A B} (p : B -> bool) (q : A -> bool) (h : A -> B) l :
  (forall x, p (h x) = q x) -> forallb p (map h l) = forallb q l.
Proof.
  intros H. induction l as [|x l IH]; simpl; [reflexivity|].
  now rewrite H, IH.
Qed.

(** Presence of the keys does not depend on the objectives. *)
Lemma keys_present_replace f data :
  keys_present (replace_objectives f data) = keys_present data.
Proof.
  unfold keys_present, replace_objectives.
  rewrite object_with_on_key, list_at_on_key. f_equal.
  destruct (list_at "strands" data) as [strands|]; [|reflexivity]. simpl.
  apply forallb_map_eq. intros strand. unfold strand_keys_present.
  rewrite object_with_on_key, list_at_on_key. f_equal.
  destruct (list_at "standards" strand) as [standards|]; [|reflexivity].
  simpl. apply forallb_map_eq. intros standard. apply object_with_on_key.
Qed.

Lemma keys_present_validates data :
  keys_present data = true -> validate_output data = Ok true.
Proof.
  intros H. rewrite validate_output_eq. f_equal.
  unfold keys_present in H. unfold document_passes.
  apply andb_prop in H as [-> H]. simpl.
  destruct (list_at "strands" data) as [strands|]; [|discriminate].
  revert H. apply forallb_impl. intros strand H.
  unfold strand_keys_present in H. unfold strand_passes.
  apply andb_prop in H as [-> H]. simpl.
  destruct (list_at "standards" strand) as [standards|]; [|discriminate].
  revert H. apply forallb_impl, object_passes.
Qed.

End Validator.

Example empty_standards_validate :
  validate_output document_with_empty_strand = Ok true.
Proof. reflexivity. Qed.

Example missing_strand_code_fails :
  validate_output document_without_strand_code = Ok false.
Proof. reflexivity. Qed.

(** C8: the code returns true for a document one of whose standards is a
    sentence that mentions the three key names: [in] on a string looks for
    a substring.  That standard is no object and has none of the keys. *)
Theorem text_standard_validates :
  validate_output document_with_text_standard = Ok true
  /\ keys_present document_with_text_standard = false.
Proof. split; reflexivity. Qed.




(** C10: when the required keys are present at every checked level the
    document passes validation, and it still does when the value stored
    under knowledge_and_skills in each standard is replaced by any other
    value: a list, a string, a number or null. *)
Theorem keys_suffice (data : value) :
  keys_present data = true ->
  validate_output data = Ok true
  /\ forall f, validate_output (replace_objectives f data) = Ok true.
Proof.
  intros H. split.
  - now apply keys_present_validates.
  - intros f. apply keys_present_validates.
    now rewrite keys_present_replace.
Qed.

Lemma keys_suffice_witness :
  keys_present document_with_odd_objectives = true
  /\ validate_output document_with_odd_objectives = Ok true
  /\ validate_output
       (replace_objectives (fun _ => VNone) document_with_odd_objectives)
     = Ok true.
Proof.
  split; [reflexivity|].
  destruct (keys_suffice document_with_odd_objectives eq_refl) as [H1 H2].
  split; [exact H1 | apply H2].
Defined.

(* ================================================================== *)
(** * Trimming *)

Section Trimming.

Lemma lstrip_blank s : blank s = true -> lstrip s = "".
Proof.
  unfold blank. induction s as [|a s IH]; simpl; [reflexivity|].
  intros H. apply andb_prop in H as [Ha Hs]. rewrite Ha. auto.
Qed.

Lemma rstrip_blank s : blank s = true -> rstrip s = "".
Proof.
  unfold blank. induction s as [|a s IH]; simpl; [reflexivity|].
  intros H. apply andb_prop in H as [Ha Hs]. now rewrite (IH Hs), Ha.
Qed.

Lemma rstrip_not_blank s : blank s = false -> rstrip s <> "".
Proof.
  unfold blank. induction s as [|a s IH]; simpl; [discriminate|].
  intros H. destruct (rstrip s) eqn:E; [|discriminate].
  destruct (is_space a) eqn:Ha; simpl in H |- *; [|discriminate].
  now elim IH.
Qed.

Lemma lstrip_not_blank s : blank s = false -> blank (lstrip s) = false.
Proof.
  unfold blank. induction s as [|a s IH]; simpl; [auto|].
  destruct (is_space a) eqn:Ha; simpl; [auto|].
  intros _. now rewrite Ha.
Qed.

Lemma truthy_strip s : truthy (strip s) = negb (blank s).
Proof.
  unfold strip. destruct (blank s) eqn:B; simpl.
  - now rewrite (lstrip_blank _ B).
  - apply lstrip_not_blank, rstrip_not_blank in B.
    destruct (rstrip (lstrip s)); [congruence | reflexivity].
Qed.

Lemma rstrip_idem s : rstrip (rstrip s) = rstrip s.
Proof.
  induction s as [|a s IH]; simpl; [reflexivity|].
  destruct (rstrip s) as [|b t] eqn:E.
  - destruct (is_space a) eqn:Ha; simpl; [reflexivity | now rewrite Ha].
  - simpl in IH |- *.
    destruct (rstrip t); [destruct (is_space b)|]; congruence.
Qed.

Lemma rstrip_head a s :
  is_space a = false -> exists t, rstrip (String a s) = String a t.
Proof.
  intros Ha. simpl. destruct (rstrip s); rewrite ?Ha; eauto.
Qed.

Lemma lstrip_rstrip_lstrip s : lstrip (rstrip (lstrip s)) = rstrip (lstrip s).
Proof.
  induction s as [|a s IH]; [reflexivity|].
  cbn [lstrip]. destruct (is_space a) eqn:Ha; [exact IH|].
  destruct (rstrip_head a s Ha) as [t ->]. simpl. now rewrite Ha.
Qed.

Lemma strip_idem s : strip (strip s) = strip s.
Proof. unfold strip. now rewrite lstrip_rstrip_lstrip, rstrip_idem. Qed.

Lemma blank_strip s : blank (strip s) = blank s.
Proof.
  pose proof (truthy_strip (strip s)) as H. rewrite strip_idem, truthy_strip in H.
  destruct (blank (strip s)), (blank s); simpl in H; congruence.
Qed.

Lemma strip_nonempty s : truthy (strip s) = true -> strip s <> "".
Proof. destruct (strip s); [discriminate | discriminate]. Qed.

End Trimming.

(* ================================================================== *)
(** * The text sent to the model *)

Section Text.

Lemma for_fold_app {A S} (body : S -> A -> result S) l1 l2 s :
  for_fold body (l1 ++ l2)%list s
  = bind (for_fold body l1 s) (for_fold body l2).
Proof.
  revert s. induction l1 as [|x l1 IH]; intros s; simpl; [reflexivity|].
  destruct (body s x); simpl; auto.
Qed.

Lemma text_para_step_eq text_parts para :
  ExtractorText.para_step text_parts para =
    if retained para
    then if unnamed para then Raise TypeError
         else Ok (text_parts ++ [rendered (entry para)])%list
    else Ok text_parts.
Proof.
  unfold ExtractorText.para_step, retained, unnamed, rendered, entry,
    ExtractorText.style_name_of, is_heading.
  destruct (truthy _); [|reflexivity]. simpl.
  destruct (para_style para) as [[[n|]]|]; simpl; try reflexivity.
  destruct (occurs "Head" n); simpl; [reflexivity|].
  destruct (occurs "Title" n); reflexivity.
Qed.

Lemma text_para_loop ps : forall text_parts,
  for_fold ExtractorText.para_step ps text_parts =
    if existsb (fun para => retained para && unnamed para) ps
    then Raise TypeError
    else Ok (text_parts ++ map rendered (map entry (filter retained ps)))%list.
Proof.
  induction ps as [|p ps IH]; intros text_parts.
  - simpl. now rewrite app_nil_r.
  - cbn [for_fold existsb filter]. rewrite text_para_step_eq.
    destruct (retained p); simpl; [|apply IH].
    destruct (unnamed p); simpl; [reflexivity|].
    rewrite IH. destruct (existsb _ ps); [reflexivity|].
    now rewrite <- List.app_assoc.
Qed.

Lemma text_row_loop rs : forall text_parts,
  fold_left ExtractorText.row_step rs text_parts
  = (text_parts
       ++ filter (fun t => negb (blank t)) (map row_text rs))%list.
Proof.
  induction rs as [|r rs IH]; intros text_parts.
  - simpl. now rewrite app_nil_r.
  - cbn [fold_left map filter]. unfold ExtractorText.row_step at 2.
    fold (trimmed_row r). fold (row_text r). rewrite truthy_strip.
    destruct (negb (blank (row_text r))); rewrite IH;
      [now rewrite <- List.app_assoc | reflexivity].
Qed.

Lemma text_table_loop ts : forall text_parts,
  fold_left ExtractorText.table_step ts text_parts
  = (text_parts ++ flat_map table_block ts)%list.
Proof.
  induction ts as [|t ts IH]; intros text_parts.
  - simpl. now rewrite app_nil_r.
  - cbn [fold_left flat_map]. unfold ExtractorText.table_step at 2.
    rewrite text_row_loop, IH. unfold table_block.
    now rewrite <- !List.app_assoc.
Qed.

Lemma text_of_document_eq doc :
  ExtractorText.text_of_document doc =
    if existsb (fun para => retained para && unnamed para) (doc_paragraphs doc)
    then Raise TypeError
    else Ok (join nl (map rendered (paragraphs (_extract_content doc))
                        ++ flat_map table_block (doc_tables doc))%list).
Proof.
  unfold ExtractorText.text_of_document.
  rewrite text_para_loop, extract_content_eq. cbn [paragraphs].
  destruct (existsb _ _); [reflexivity|]. simpl.
  now rewrite text_table_loop.
Qed.

End Text.

(** X1: [extract_text_from_docx] raises exactly when some paragraph with a
    non-blank text has a style without a name, and what it raises is a
    [TypeError]; a blank paragraph with such a style does no harm. *)
Theorem text_raises_on_unnamed_style (doc : Document) :
  (ExtractorText.text_of_document doc = Raise TypeError
   <-> exists para,
         In para (doc_paragraphs doc)
         /\ retained para = true /\ unnamed para = true)
  /\ (forall e, ExtractorText.text_of_document doc = Raise e -> e = TypeError).
Proof.
  rewrite text_of_document_eq.
  destruct (existsb _ _) eqn:E.
  - apply existsb_exists in E as (para & Hin & H).
    apply andb_prop in H as [H1 H2].
    split; [|now intros e [= <-]].
    split; [intros _; eauto | reflexivity].
  - split; [|discriminate]. split; [discriminate|].
    intros (para & Hin & H1 & H2). exfalso.
    assert (H : existsb (fun para => retained para && unnamed para)
                  (doc_paragraphs doc) = true).
    { apply existsb_exists. exists para. now rewrite H1, H2. }
    congruence.
Qed.

(** X2: when [extract_text_from_docx] returns, its text is made, in order, of
    the paragraphs that [_extract_content] stores (headings wrapped in
    hashes) and of one block per table, all joined by line feeds. *)
Theorem text_follows_content (doc : Document) (t : string) :
  ExtractorText.text_of_document doc = Ok t ->
  t = join nl (map rendered (paragraphs (_extract_content doc))
                 ++ flat_map table_block (doc_tables doc))%list.
Proof.
  rewrite text_of_document_eq. destruct (existsb _ _); [discriminate|].
  now intros [= <-].
Qed.

Lemma text_follows_content_witness :
  exists t,
    ExtractorText.text_of_document sample_document = Ok t
    /\ t = join nl (map rendered (paragraphs (_extract_content sample_document))
                      ++ flat_map table_block (doc_tables sample_document))%list.
Proof.
  eexists. split; [reflexivity|].
  apply (text_follows_content sample_document). reflexivity.
Defined.

Section TextRows.

Lemma blank_append u v : blank (u ++ v) = blank u && blank v.
Proof. apply all_chars_append. Qed.

Lemma join_two sep a b rest :
  join sep (a :: b :: rest) = a ++ sep ++ join sep (b :: rest).
Proof. reflexivity. Qed.

Lemma any_single s : any [strip s] = truthy (strip s).
Proof. unfold any. simpl. now rewrite orb_false_r. Qed.

End TextRows.

(** X3: the text has a row of a table exactly when the row has two cells or
    more, or one cell that is not blank; so a row of several blank cells,
    which [_extract_content] drops, is written as separators. *)
Theorem text_keeps_wide_rows (text_parts : list string) (row : Row) :
  ExtractorText.row_step text_parts row =
    if (2 <=? List.length (cells row))%nat || any (trimmed_row row)
    then (text_parts ++ [row_text row])%list
    else text_parts.
Proof.
  unfold ExtractorText.row_step. fold (trimmed_row row). fold (row_text row).
  rewrite truthy_strip. unfold row_text, trimmed_row.
  destruct (cells row) as [|c1 [|c2 cs]]; cbn [map List.length].
  - reflexivity.
  - cbn [join Nat.leb orb]. rewrite blank_strip, any_single, truthy_strip.
    reflexivity.
  - rewrite join_two, !blank_append.
    replace (blank " | ") with false by reflexivity.
    now rewrite andb_false_r.
Qed.

(* ================================================================== *)
(** * What the extracted content looks like *)

Section ContentShape.

Lemma entry_trimmed para : retained para = true -> trimmed_para (entry para).
Proof.
  unfold retained, trimmed_para, entry. simpl. intros H.
  split; [now apply strip_nonempty | apply strip_idem].
Qed.

Lemma trimmed_row_cells row : Forall (fun c => strip c = c) (trimmed_row row).
Proof.
  unfold trimmed_row. apply Forall_forall. intros c Hin.
  apply in_map_iff in Hin as (cell & <- & _). apply strip_idem.
Qed.

Lemma trimmed_table_rows table : Forall trimmed_cells (trimmed_table table).
Proof.
  unfold trimmed_table. apply Forall_forall. intros r Hin.
  apply filter_In in Hin as [Hin Hany].
  apply in_map_iff in Hin as (row & <- & _).
  split; [assumption | apply trimmed_row_cells].
Qed.

Lemma stored_paragraphs_trimmed doc :
  Forall trimmed_para (paragraphs (_extract_content doc)).
Proof.
  rewrite extract_content_eq. cbn. apply Forall_forall. intros p Hin.
  apply in_map_iff in Hin as (para & <- & Hin).
  apply filter_In in Hin as [_ H]. now apply entry_trimmed.
Qed.

Lemma stored_tables_trimmed doc :
  Forall trimmed_rows (tables (_extract_content doc)).
Proof.
  rewrite extract_content_eq. cbn. rewrite contributions.
  apply Forall_forall. intros t Hin.
  apply filter_In in Hin as [Hin Hrows].
  apply in_map_iff in Hin as (table & <- & _).
  split; [|apply trimmed_table_rows].
  intros E. rewrite E in Hrows. discriminate.
Qed.

End ContentShape.

(** X4: every stored paragraph has a text that is not empty and has no
    whitespace at either end; every identified standard is recognised by
    [_is_standard] and is the text of a stored paragraph; there are no more
    standards than stored paragraphs, and no more stored paragraphs than
    paragraphs in the document. *)
Theorem content_paragraphs_shape (doc : Document) :
  Forall trimmed_para (paragraphs (_extract_content doc))
  /\ Forall (fun s =>
               _is_standard s = true
               /\ exists p,
                    In p (paragraphs (_extract_content doc)) /\ text p = s)
       (identified_standards (_extract_content doc))
  /\ List.length (identified_standards (_extract_content doc))
     <= total_paragraphs (_extract_content doc)
  /\ total_paragraphs (_extract_content doc)
     <= List.length (doc_paragraphs doc).
Proof.
  split; [apply stored_paragraphs_trimmed|].
  rewrite extract_content_eq. cbn.
  split; [|split].
  - apply Forall_forall. intros s Hin.
    apply filter_In in Hin as [Hin Hs]. split; [assumption|].
    apply in_map_iff in Hin as (p & <- & Hin). eauto.
  - rewrite <- (length_map text). apply filter_length_le.
  - rewrite length_map. apply filter_length_le.
Qed.

(** X5: every stored table has a row, every stored row has a cell that is
    not empty, and every stored cell is free of whitespace at either end;
    there are no more stored tables than tables in the document. *)
Theorem content_tables_shape (doc : Document) :
  Forall trimmed_rows (tables (_extract_content doc))
  /\ total_tables (_extract_content doc) <= List.length (doc_tables doc).
Proof.
  split; [apply stored_tables_trimmed|].
  rewrite extract_content_eq. cbn. rewrite contributions.
  rewrite <- (length_map trimmed_table (doc_tables doc)).
  apply filter_length_le.
Qed.

Section Stability.

Lemma reextract_paragraphs (ps : list Para) :
  Forall trimmed_para ps ->
  map entry (filter retained (doc_paragraphs
     (as_document {| paragraphs := ps; tables := [];
                     identified_standards := [];
                     total_paragraphs := 0; total_tables := 0 |}))) = ps.
Proof.
  cbn. induction 1 as [|[tx st] ps [Hne Hs] _ IH]; [reflexivity|].
  cbn [text] in Hne, Hs.
  cbn [map filter]. unfold retained at 1. cbn [para_text text].
  rewrite Hs. destruct tx as [|a tx]; [congruence|]. cbn [truthy map].
  rewrite IH. f_equal. unfold entry. cbn [para_text para_style text style].
  rewrite Hs. now destruct st.
Qed.

Lemma map_strip_id r : Forall (fun c => strip c = c) r -> map strip r = r.
Proof.
  induction 1 as [|c r Hc _ IH]; [reflexivity|]. cbn. now rewrite Hc, IH.
Qed.

Lemma rebuilt_row r :
  trimmed_row {| cells := map (fun c => {| cell_text := c |}) r |}
  = map strip r.
Proof. unfold trimmed_row. cbn. now rewrite map_map. Qed.

Lemma rebuilt_table t :
  Forall trimmed_cells t ->
  trimmed_table
    {| rows := map (fun r => {| cells := map (fun c => {| cell_text := c |}) r |})
                 t |} = t.
Proof.
  unfold trimmed_table. cbn. rewrite map_map.
  induction 1 as [|r t [Hany Hc] _ IH]; [reflexivity|].
  cbn [map filter]. rewrite rebuilt_row, (map_strip_id _ Hc), Hany.
  now rewrite IH.
Qed.

Lemma reextract_tables (ts : list (list (list string))) :
  Forall trimmed_rows ts ->
  flat_map contribution
    (map (fun t =>
            {| rows := map (fun r =>
                              {| cells := map (fun c => {| cell_text := c |})
                                            r |}) t |}) ts) = ts.
Proof.
  induction 1 as [|t ts [Hne Hr] _ IH]; [reflexivity|].
  cbn [map flat_map]. unfold contribution at 1.
  rewrite (rebuilt_table _ Hr), IH.
  destruct t; [congruence | reflexivity].
Qed.

End Stability.

(** X6: extracting again from a document that holds what was extracted gives
    the same content: extraction leaves nothing to trim or drop. *)
Theorem extraction_is_stable (doc : Document) :
  _extract_content (as_document (_extract_content doc))
  = _extract_content doc.
Proof.
  pose proof (stored_paragraphs_trimmed doc) as HP.
  pose proof (stored_tables_trimmed doc) as HT.
  rewrite (extract_content_eq (as_document _)).
  destruct (_extract_content doc) as [ps ts stds np nt] eqn:E.
  cbn [paragraphs tables] in HP, HT.
  pose proof (reextract_paragraphs ps HP) as RP. cbn in RP.
  pose proof (reextract_tables ts HT) as RT.
  cbn zeta. cbn [as_document doc_paragraphs doc_tables paragraphs tables].
  rewrite RP, RT.
  rewrite extract_content_eq in E. cbn zeta in E.
  injection E as E1 E2 E3 E4 E5. subst. reflexivity.
Qed.

(* ================================================================== *)
(** * Names of standards documents *)

Section LazySteps.

Context {A : Type}.
Implicit Types (k : nat -> string -> list string -> option A).

(** A lazy repetition stops at the first length at which what follows
    succeeds. *)
Lemma rep_lazy_first c w :
  forall lo pos s' (k : nat -> string -> option A) x,
  all_chars (mem c) w = true -> lo <= String.length w ->
  (forall u v, w = u ++ v -> v <> "" -> lo <= String.length u ->
               k (pos + String.length u) (v ++ s') = None) ->
  k (pos + String.length w) s' = Some x ->
  rep false c lo None pos (w ++ s') k = Some x.
Proof.
  induction w as [|a w IH]; intros lo pos s' k x Hw Hlo Hfail Hk;
    rewrite rep_eq; cbv zeta.
  - simpl in *. assert (lo = 0) as -> by lia.
    rewrite Nat.add_0_r in Hk. simpl. now rewrite Hk.
  - simpl in Hw. apply andb_prop in Hw as [Ha Hw].
    assert (Hstop : (if (lo =? 0)%nat then k pos (String a w ++ s') else None)
                    = None).
    { destruct (Nat.eqb_spec lo 0) as [->|]; [|reflexivity].
      specialize (Hfail "" (String a w) eq_refl). simpl in Hfail.
      rewrite Nat.add_0_r in Hfail. apply Hfail; [discriminate | lia]. }
    rewrite Hstop. simpl. rewrite Ha. simpl.
    apply IH; auto.
    + simpl in Hlo. lia.
    + intros u v -> Hv Hu.
      specialize (Hfail (String a u) v eq_refl Hv). simpl in Hfail.
      rewrite Nat.add_succ_comm. apply Hfail. lia.
    + simpl in Hk. now rewrite Nat.add_succ_comm.
Qed.

Lemma run_group_lazy c w pos s' caps k x :
  all_chars (mem c) w = true -> w <> "" ->
  (forall u v cs, w = u ++ v -> v <> "" ->
                  k (pos + String.length u) (v ++ s') cs = None) ->
  k (pos + String.length w) s' (caps ++ [w])%list = Some x ->
  run (Grp (plus_lazy c)) pos (w ++ s') caps k = Some x.
Proof.
  intros Hw Hne Hfail Hk. simpl. apply rep_lazy_first; [assumption | | |].
  - destruct w; [congruence | simpl; lia].
  - intros u v E Hv _. now apply Hfail.
  - now rewrite Nat.add_comm, Nat.add_sub, take_append, Nat.add_comm.
Qed.

(** A repetition with its count fixed takes that many characters. *)
Lemma rep_exact c w : forall pos s' (k : nat -> string -> option A) x,
  all_chars (mem c) w = true ->
  k (pos + String.length w) s' = Some x ->
  rep true c (String.length w) (Some (String.length w)) pos (w ++ s') k
  = Some x.
Proof.
  induction w as [|a w IH]; intros pos s' k x Hw Hk; rewrite rep_eq; cbv zeta.
  - simpl in *. rewrite Nat.add_0_r in Hk. rewrite Hk.
    destruct s' as [|b s']; [reflexivity|]. simpl. now rewrite andb_false_r.
  - simpl in Hw. apply andb_prop in Hw as [Ha Hw]. simpl. rewrite Ha. simpl.
    erewrite IH; eauto. simpl in Hk. now rewrite Nat.add_succ_comm.
Qed.

Lemma run_group_exact c w n pos s' caps k x :
  all_chars (mem c) w = true -> String.length w = n ->
  k (pos + String.length w) s' (caps ++ [w])%list = Some x ->
  run (Grp (exactly n c)) pos (w ++ s') caps k = Some x.
Proof.
  intros Hw <- Hk. simpl. apply rep_exact; auto.
  now rewrite Nat.add_comm, Nat.add_sub, take_append, Nat.add_comm.
Qed.

(** A literal fails on a text that starts with another character. *)
Lemma run_lit_mismatch b l a s pos caps k rs :
  Ascii.eqb a b = false ->
  run (seq (lit (String b l) :: rs)) pos (String a s) caps k = None.
Proof. intros H. simpl. now rewrite H. Qed.

End LazySteps.

Section StandardsNames.

Lemma plain_subject_any S :
  plain_subject S -> all_chars (mem Dot) S = true.
Proof.
  intros [_ H]. revert H. apply all_chars_impl.
  intros a Ha. apply andb_prop in Ha as [Ha _]. exact Ha.
Qed.

Lemma plain_subject_tail u v :
  all_chars (fun a => negb (is_newline a) && negb (Ascii.eqb a "-")) (u ++ v)
  = true ->
  v <> "" ->
  exists a v', v = String a v' /\ Ascii.eqb a "-" = false.
Proof.
  rewrite all_chars_append. intros H Hv.
  apply andb_prop in H as [_ H].
  destruct v as [|a v']; [congruence|].
  simpl in H. apply andb_prop in H as [H _]. apply andb_prop in H as [_ H].
  exists a, v'. split; [reflexivity|]. now apply negb_true_iff in H.
Qed.

Lemma digit_not_hyphen a : is_digit a = true -> Ascii.eqb a "-" = false.
Proof.
  intros H. destruct (Ascii.eqb_spec a "-") as [->|]; [discriminate H | auto].
Qed.

Lemma sol_pattern_groups N S Y :
  digits N -> plain_subject S -> year4 Y ->
  re_match sol_pattern (sol_name_of N S Y) = Some [N; S; Y].
Proof.
  intros [HN dN] HS [LY dY]. pose proof HS as [HSne HSc].
  unfold re_match, sol_pattern, sol_name_of.
  rewrite run_seq_cons.
  apply run_group_plus_max; [assumption | assumption | reflexivity |].
  rewrite run_seq_cons, run_lit.
  rewrite run_seq_cons.
  apply run_group_lazy; [now apply plain_subject_any | assumption | |].
  { intros u v cs E Hv. subst S.
    destruct (plain_subject_tail u v HSc Hv) as (a & v' & -> & Ha).
    now apply run_lit_mismatch. }
  rewrite run_seq_cons, run_lit.
  rewrite run_seq_cons.
  apply (run_group_exact Digit Y 4); [assumption | assumption |].
  change "-Approved-Math-SOL.docx" with ("-Approved-Math-SOL.docx" ++ "").
  rewrite run_seq_cons, run_lit. reflexivity.
Qed.

Lemma count_char_append c u v :
  count_char c (u ++ v) = count_char c u + count_char c v.
Proof.
  induction u as [|a u IH]; simpl; [reflexivity|]. rewrite IH. lia.
Qed.

Lemma count_char_none c p s :
  (forall a, p a = true -> Ascii.eqb a c = false) ->
  all_chars p s = true -> count_char c s = 0.
Proof.
  intros Hp. induction s as [|a s IH]; simpl; [reflexivity|].
  intros H. apply andb_prop in H as [Ha Hs]. now rewrite (Hp _ Ha), IH.
Qed.

(** What [sol_pattern] accepts has five hyphens at least. *)
Lemma sol_pattern_hyphens f :
  prefix_accepted sol_pattern f -> 5 <= count_char "-" f.
Proof.
  intros (w & rest & caps & -> & M). unfold sol_pattern in M. read_pattern.
  rewrite !count_char_append. simpl. lia.
Qed.

Lemma understanding_name_hyphens N S :
  digits N -> plain_subject S ->
  count_char "-" (understanding_name_of N S) = 2.
Proof.
  intros [_ dN] [_ HS]. unfold understanding_name_of.
  rewrite !count_char_append.
  rewrite (count_char_none "-" is_digit N digit_not_hyphen dN).
  rewrite (count_char_none "-" _ S (fun a H =>
             proj1 (negb_true_iff _) (proj2 (andb_prop _ _ H))) HS).
  reflexivity.
Qed.

Lemma understanding_pattern_groups N S :
  digits N -> plain_subject S ->
  re_match understanding_pattern (understanding_name_of N S) = Some [N; S].
Proof.
  intros [HN dN] HS. pose proof HS as [HSne HSc].
  unfold re_match, understanding_pattern, understanding_name_of.
  rewrite run_seq_cons.
  apply run_group_plus_max; [assumption | assumption | reflexivity |].
  rewrite run_seq_cons, run_lit.
  rewrite run_seq_cons.
  apply run_group_lazy; [now apply plain_subject_any | assumption | |].
  { intros u v cs E Hv. subst S.
    destruct (plain_subject_tail u v HSc Hv) as (a & v' & -> & Ha).
    now apply run_lit_mismatch. }
  reflexivity.
Qed.

End StandardsNames.

(** X7: a filename "N-S-Y-Approved-Math-SOL.docx", with N a run of digits, S a
    subject without hyphen and Y a year of four digits, is classified as
    "Approved SOL Standards" with N, S and Y as number, subject and year and
    with the grade level that [_get_grade_level] gives for N and S. *)
Theorem sol_name_classified (N S Y g : string) :
  digits N -> plain_subject S -> year4 Y ->
  _get_grade_level N S = Ok g ->
  _parse_filename (sol_name_of N S Y)
  = Ok [("type", "Approved SOL Standards");
        ("number", N);
        ("subject", S);
        ("year", Y);
        ("grade_level", g)].
Proof.
  intros HN HS HY Hg. unfold _parse_filename.
  now rewrite (sol_pattern_groups N S Y HN HS HY), Hg.
Qed.

Lemma sol_name_classified_witness :
  _parse_filename (sol_name_of "10" "Geometry" "2023")
  = Ok [("type", "Approved SOL Standards");
        ("number", "10");
        ("subject", "Geometry");
        ("year", "2023");
        ("grade_level", "Geometry")].
Proof.
  apply (sol_name_classified "10" "Geometry" "2023" "Geometry");
    try (split; [discriminate | reflexivity]); try (split; reflexivity);
    reflexivity.
Defined.

(** X8: a filename "N-S-Understanding the Standards.docx", with N a run of
    digits and S a subject without hyphen, is passed over by the first two
    patterns and classified as "Understanding the Standards" with N and S as
    number and subject and the grade level that [_get_grade_level] gives. *)
Theorem understanding_name_classified (N S g : string) :
  digits N -> plain_subject S ->
  _get_grade_level N S = Ok g ->
  _parse_filename (understanding_name_of N S)
  = Ok [("type", "Understanding the Standards");
        ("number", N);
        ("subject", S);
        ("grade_level", g)].
Proof.
  intros HN HS Hg. unfold _parse_filename.
  assert (E1 : re_match sol_pattern (understanding_name_of N S) = None).
  { destruct (re_match sol_pattern _) eqn:E; [exfalso | reflexivity].
    apply found, sol_pattern_hyphens in E.
    rewrite (understanding_name_hyphens N S HN HS) in E. lia. }
  assert (E2 : re_match guide_pattern (understanding_name_of N S) = None).
  { destruct (re_match guide_pattern _) eqn:E; [exfalso | reflexivity].
    apply found in E. destruct HN as [_ dN].
    apply (number_then "." "" _ N "-") in E; auto; discriminate. }
  now rewrite E1, E2, (understanding_pattern_groups N S HN HS), Hg.
Qed.

Lemma understanding_name_classified_witness :
  _parse_filename (understanding_name_of "12" "AFDA")
  = Ok [("type", "Understanding the Standards");
        ("number", "12");
        ("subject", "AFDA");
        ("grade_level", "Algebra 2")].
Proof.
  apply (understanding_name_classified "12" "AFDA" "Algebra 2");
    try (split; [discriminate | reflexivity]); reflexivity.
Defined.

(* ================================================================== *)
(** * Reading and writing: the parser and its batch script *)

Section MonadFacts.

Context {W : Type}.

Lemma bindM_ok {A B} (m : M W A) (f : A -> M W B) (w w' : W) r :
  bindM m f w = (Ok r, w') ->
  exists a w1, m w = (Ok a, w1) /\ f a w1 = (Ok r, w').
Proof.
  unfold bindM. destruct (m w) as [[a|e] w1]; [eauto | discriminate].
Qed.

Lemma lift_ok {A} (r : result A) (w w' : W) a :
  lift r w = (Ok a, w') -> r = Ok a /\ w' = w.
Proof. unfold lift. now intros [= -> ->]. Qed.

Lemma ret_ok {A} (a : A) (w w' : W) b :
  ret a w = (Ok b, w') -> b = a /\ w' = w.
Proof. unfold ret. now intros [= -> ->]. Qed.

Lemma bindM_raise {A B} (m : M W A) (f : A -> M W B) (w w' : W) e :
  bindM m f w = (Raise e, w') ->
  m w = (Raise e, w')
  \/ exists a w1, m w = (Ok a, w1) /\ f a w1 = (Raise e, w').
Proof.
  unfold bindM. destruct (m w) as [[a|e1] w1]; [eauto |].
  intros [= -> ->]. now left.
Qed.

Lemma try_except_ok {A} (body : M W A) (handler : exn -> M W A) (w w' : W) a :
  try_except body handler w = (Ok a, w') ->
  body w = (Ok a, w')
  \/ exists e w1, body w = (Raise e, w1) /\ handler e w1 = (Ok a, w').
Proof.
  unfold try_except. destruct (body w) as [[b|e] w1]; [|eauto].
  intros [= -> ->]. now left.
Qed.

End MonadFacts.

Section ParsedCsv.


End ParsedCsv.



(** X10: the combined CSV is, after its own header, the rows of the CSV files
    of the documents, in order and without their headers, each with the type
    of its document put in as third column; it has one row for each
    identified standard of each document. *)
Theorem combined_csv_rows (results : list Parsed.t) :
  tl (ParserIO.combined_rows results)
  = flat_map (fun r =>
                map (with_type (ParserIO.get (Parsed.metadata r) "type"
                                  "Unknown"))
                  (tl (ParserIO.csv_rows r)))
      results
  /\ List.length (ParserIO.combined_rows results)
     = 1 + standards_count results.
Proof.
  unfold ParserIO.combined_rows, standards_count. cbn [tl List.length].
  split.
  - induction results as [|r rs IH]; [reflexivity|].
    cbn [flat_map]. rewrite IH. f_equal.
    unfold ParserIO.csv_rows. cbn [tl]. rewrite map_map. reflexivity.
  - change (1 + ?n) with (S n). f_equal.
    induction results as [|r rs IH]; [reflexivity|].
    cbn [flat_map map list_sum fold_right]. rewrite length_app, length_map.
    f_equal. exact IH.
Qed.

Section ProcessLoop.

Variable W : Type.
Variable load_document : string -> M W Document.
Variables path_name path_stem : string -> string.
Variable path_join : string -> string -> string.
Variable dump_json : string -> value -> M W unit.
Variable write_csv : string -> list (list string) -> M W unit.
Variable print : ParserIO.Message -> M W unit.

Let attempt :=
  ParserIO.process_try W load_document path_name path_stem path_join
    dump_json write_csv print.

Let step :=
  ParserIO.process_step W load_document path_name path_stem path_join
    dump_json write_csv print.

(** The exception and the state are those a [print] left. *)
Let printing (e : exn) (w' : W) : Prop :=
  exists m w0, print m w0 = (Raise e, w').


(** How one file changes the counts: it adds its result and counts as
    successful, and as failed too when a print of the [try] raised after
    that; or it leaves the results alone and counts as failed. *)
Let counted (file_path : string) (st st' : ParserIO.progress) : Prop :=
  (exists result,
     ParserIO.all_results st' = (ParserIO.all_results st ++ [result])%list
     /\ Parsed.source_file result = path_name file_path
     /\ ParserIO.successful st' = ParserIO.successful st + 1
     /\ (ParserIO.failed st' = ParserIO.failed st
         \/ ParserIO.failed st' = ParserIO.failed st + 1))
  \/ (ParserIO.all_results st' = ParserIO.all_results st
      /\ ParserIO.successful st' = ParserIO.successful st
      /\ ParserIO.failed st' = ParserIO.failed st + 1).







Let has_source (files : list string) (r : Parsed.t) : Prop :=
  exists f, In f files /\ Parsed.source_file r = path_name f.



End ProcessLoop.



(* ================================================================== *)
(** * Reading and writing: the extractor *)

Section SetKey.

Lemma lookup_set_key k x d : lookup k (ExtractorIO.set_key k x d) = Some x.
Proof.
  induction d as [|[k' v] d IH]; simpl.
  - now rewrite String.eqb_refl.
  - destruct (String.eqb k k') eqn:E; simpl; rewrite E; auto.
Qed.

Lemma lookup_set_key_other k k' x d :
  k' <> k -> lookup k' (ExtractorIO.set_key k x d) = lookup k' d.
Proof.
  intros Hne. induction d as [|[k0 v] d IH]; simpl.
  - destruct (String.eqb_spec k' k); [contradiction | reflexivity].
  - destruct (String.eqb_spec k k0) as [->|]; simpl.
    + destruct (String.eqb_spec k' k0); [contradiction | reflexivity].
    + now rewrite IH.
Qed.


(** Setting a key twice is setting it once. *)
Lemma set_key_twice k x y d :
  ExtractorIO.set_key k y (ExtractorIO.set_key k x d)
  = ExtractorIO.set_key k y d.
Proof.
  induction d as [|[k0 v] d IH]; simpl.
  - now rewrite String.eqb_refl.
  - destruct (String.eqb k k0) eqn:E; simpl; rewrite E; [reflexivity|].
    now rewrite IH.
Qed.


End SetKey.

Section Extraction.

Variable W : Type.
Variable load_document : string -> M W Document.
Variables path_name path_stem path_txt : string -> string.
Variable path_join : string -> string -> string.
Variable write_text : string -> string -> M W unit.
Variable dump_json : string -> value -> M W unit.
Variable create_completion : string -> ExtractorIO.Request -> M W ExtractorIO.Response.
Variable json_loads : string -> result value.
Variable float_add : value -> value -> result value.
Variable print : ExtractorIO.Message -> M W unit.
Variable PROMPT : string.

Let extract :=
  ExtractorIO.extract_structured_data W load_document path_name path_txt
    write_text create_completion json_loads print PROMPT.

(** What has happened when [extract_structured_data] returns: the file was
    loaded, its text made, the request for that text answered, and the
    answer decoded to an object, which is returned with the metadata set. *)
Lemma extract_structured_data_result self file_path temperature save w w'
    result :
  extract self file_path temperature save w = (Ok result, w') ->
  exists doc doc_text response d w0 w1 w2 w3,
    load_document file_path w0 = (Ok doc, w1)
    /\ ExtractorText.text_of_document doc = Ok doc_text
    /\ create_completion (ExtractorIO.api_key self)
         (ExtractorIO.request PROMPT self temperature doc_text) w2
       = (Ok response, w3)
    /\ json_loads (ExtractorIO.reply response) = Ok (VDict d)
    /\ result
       = VDict (ExtractorIO.set_key "_extraction_metadata"
                  (ExtractorIO.extraction_metadata path_name self file_path
                     temperature response) d).
Proof.
  unfold extract, ExtractorIO.extract_structured_data. intros H.
  apply bindM_ok in H as ([] & w0 & _ & H).
  apply bindM_ok in H as (doc_text & w1 & Ht & H).
  apply bindM_ok in H as ([] & w2 & _ & H).
  apply bindM_ok in H as ([] & w3 & _ & H).
  unfold ExtractorIO.extract_text_from_docx in Ht.
  apply bindM_ok in Ht as (doc & w1' & Hd & Ht).
  apply lift_ok in Ht as [Ht ->].
  apply try_except_ok in H as [H | (e & w4 & _ & H)].
  - apply bindM_ok in H as (response & w4 & Hc & H).
    apply bindM_ok in H as (r & w5 & Hr & H).
    apply bindM_ok in H as (r' & w6 & Hs & H).
    apply bindM_ok in H as ([] & w7 & _ & H).
    apply ret_ok in H as [-> ->].
    apply lift_ok in Hr as [Hr ->]. apply lift_ok in Hs as [Hs ->].
    destruct r; try discriminate. injection Hs as <-.
    exists doc, doc_text, response, d, w0, w1', w3, w4. auto.
  - apply bindM_ok in H as ([] & w5 & _ & H). discriminate H.
Qed.

Lemma extract_structured_data_stamped self file_path temperature save w w'
    result :
  extract self file_path temperature save w = (Ok result, w') ->
  stamped (path_name file_path) result.
Proof.
  intros H. apply extract_structured_data_result in H
    as (doc & doc_text & resp & d & w0 & w1 & w2 & w3 & _ & _ & _ & _ & ->).
  eexists _, _, _. split; [reflexivity|].
  rewrite lookup_set_key. split; [reflexivity|]. split; reflexivity.
Qed.

Let attempt :=
  ExtractorIO.batch_try W load_document path_name path_stem path_txt
    path_join write_text dump_json create_completion json_loads float_add
    print PROMPT.

Let step :=
  ExtractorIO.batch_step W load_document path_name path_stem path_txt
    path_join write_text dump_json create_completion json_loads float_add
    print PROMPT.

(** The exception and the state are those a [print] left. *)
Let printing (e : exn) (w' : W) : Prop :=
  exists m w0, print m w0 = (Raise e, w').

Lemma stamped_tokens source result :
  stamped source result ->
  exists meta n,
    getitem result "_extraction_metadata" = Ok meta
    /\ getitem meta "tokens_used" = Ok (VInt n)
    /\ tokens_used_of result = n.
Proof.
  intros (d & meta & n & -> & Hm & _ & Hn).
  exists (VDict meta), n. unfold tokens_used_of. simpl. rewrite Hm. simpl.
  now rewrite Hn.
Qed.

(** How one file changes the state of the loop: it adds its stamped result
    and its tokens and counts as successful, or it leaves everything alone
    and counts as failed. *)
Let counted (file_path : string) (t : Z) (st st' : ExtractorIO.progress)
    : Prop :=
  (exists result,
     stamped (path_name file_path) result
     /\ ExtractorIO.results st' = (ExtractorIO.results st ++ [result])%list
     /\ ExtractorIO.successful st' = ExtractorIO.successful st + 1
     /\ ExtractorIO.failed st' = ExtractorIO.failed st
     /\ ExtractorIO.batch_tokens st' = VInt (t + tokens_used_of result))
  \/ (ExtractorIO.results st' = ExtractorIO.results st
      /\ ExtractorIO.successful st' = ExtractorIO.successful st
      /\ ExtractorIO.failed st' = ExtractorIO.failed st + 1
      /\ ExtractorIO.batch_tokens st' = VInt t).

Lemma batch_on_error_cases st e w :
  match ExtractorIO.on_error W print st e w with
  | (Ok st', _) => st' = ExtractorIO.count_failed st
  | (Raise e', w') => printing e' w'
  end.
Proof.
  unfold ExtractorIO.on_error, bindM, ret.
  destruct (print _ w) as [[[]|e'] w'] eqn:E; [reflexivity|].
  now exists (ExtractorIO.FailedWith e), w.
Qed.

Lemma batch_try_cases self output_path save st file_path w t :
  ExtractorIO.batch_tokens st = VInt t ->
  match attempt self output_path save st file_path w with
  | (Ok st', _) => counted file_path t st st'
  | (Raise e, w') => printing e w'
  end.
Proof.
  intros Ht. unfold attempt, ExtractorIO.batch_try.
  match goal with
  | |- context [match ?body w with _ => _ end] =>
      destruct (body w) as [[result|e] w1] eqn:E
  end.
  - apply bindM_ok in E as (r & w2 & Hx & E).
    apply bindM_ok in E as ([] & w3 & _ & E).
    apply bindM_ok in E as ([] & w4 & _ & E).
    apply ret_ok in E as [-> ->].
    apply extract_structured_data_stamped in Hx.
    destruct (stamped_tokens _ _ Hx) as (meta & n & Hget & Hused & Hn).
    cbn [ExtractorIO.batch_tokens ExtractorIO.results
         ExtractorIO.successful ExtractorIO.failed].
    rewrite Hget. cbn [bind]. rewrite Hused. cbn [bind].
    rewrite Ht. cbn [ExtractorIO.add].
    left. exists r. cbn. rewrite Hn. auto.
  - pose proof (batch_on_error_cases st e w1) as H.
    destruct (ExtractorIO.on_error W print st e w1) as [[st'|e'] w2];
      [|exact H].
    subst st'. right. cbn. auto.
Qed.

Lemma batch_step_cases self total output_path save st item w t :
  ExtractorIO.batch_tokens st = VInt t ->
  match step self total output_path save st item w with
  | (Ok st', _) => counted (snd item) t st st'
  | (Raise e, w') => printing e w'
  end.
Proof.
  intros Ht. unfold step, ExtractorIO.batch_step. cbv zeta. unfold bindM.
  destruct (print _ w) as [[[]|e] w1] eqn:E.
  - apply (batch_try_cases self output_path save st (snd item) w1 t Ht).
  - eexists _, w. exact E.
Qed.

Let has_source (files : list string) (r : value) : Prop :=
  exists f, In f files /\ stamped (path_name f) r.

Lemma batch_loop_cases self total output_path save files :
  forall start st w t,
  ExtractorIO.batch_tokens st = VInt t ->
  match for_loop (step self total output_path save) (enumerate start files)
          st w with
  | (Ok st', _) =>
      exists added,
        ExtractorIO.results st' = (ExtractorIO.results st ++ added)%list
        /\ ExtractorIO.successful st'
           = ExtractorIO.successful st + List.length added
        /\ ExtractorIO.successful st' + ExtractorIO.failed st'
           = ExtractorIO.successful st + ExtractorIO.failed st
             + List.length files
        /\ ExtractorIO.batch_tokens st'
           = VInt (t + sum_Z (map tokens_used_of added))
        /\ Forall (has_source files) added
  | (Raise e, w') => printing e w'
  end.
Proof.
  induction files as [|f files IH]; intros start st w t Ht;
    cbn [enumerate for_loop].
  - unfold ret. exists []. cbn. rewrite app_nil_r, Z.add_0_r.
    repeat split; auto; lia.
  - unfold bindM.
    pose proof (batch_step_cases self total output_path save st (start, f) w
                  t Ht) as Hs.
    destruct (step self total output_path save st (start, f) w)
      as [[st1|e] w1]; [|exact Hs].
    cbn [snd] in Hs.
    assert (Hmono : forall added,
      Forall (has_source files) added ->
      Forall (has_source (f :: files)) added).
    { intros added. apply Forall_impl. intros r (f0 & H0 & H1).
      exists f0. split; [now right | assumption]. }
    destruct Hs as [(result & Hst & Hr & Hs & Hf & Htok)
                   | (Hr & Hs & Hf & Htok)].
    + specialize (IH (S start) st1 w1 _ Htok).
      destruct (for_loop (step self total output_path save)
                  (enumerate (S start) files) st1 w1) as [[st'|e] w'];
        [|exact IH].
      destruct IH as (added & Hres & Hsucc & Hsum & Htot & Hin).
      exists (result :: added).
      rewrite Hres, Hr, <- List.app_assoc.
      cbn [List.length map sum_Z fold_right app].
      repeat split; try lia.
      * rewrite Htot. f_equal. unfold sum_Z. lia.
      * constructor; [|now apply Hmono].
        exists f. split; [now left | assumption].
    + specialize (IH (S start) st1 w1 _ Htok).
      destruct (for_loop (step self total output_path save)
                  (enumerate (S start) files) st1 w1) as [[st'|e] w'];
        [|exact IH].
      destruct IH as (added & Hres & Hsucc & Hsum & Htot & Hin).
      exists added. rewrite Hres, Hr. cbn [List.length].
      repeat split; try lia; auto.
Qed.

End Extraction.

(** X12: when [extract_structured_data] returns, the file was loaded, the
    request made of its text was answered by the service, the reply was
    decoded to a JSON object, and the result is that object with the
    metadata of the extraction, which has the counters of that answer,
    stored under "_extraction_metadata": every other key is there with the
    value the reply gave it. *)
Theorem structured_data_keeps_reply (W : Type)
    (load_document : string -> M W Document)
    (path_name path_txt : string -> string)
    (write_text : string -> string -> M W unit)
    (create_completion :
       string -> ExtractorIO.Request -> M W ExtractorIO.Response)
    (json_loads : string -> result value)
    (print : ExtractorIO.Message -> M W unit) (PROMPT : string)
    (self : ExtractorIO.Extractor) (file_path : string) (temperature : value)
    (save_raw_text : bool) (w w' : W) (result : value) :
  ExtractorIO.extract_structured_data W load_document path_name path_txt
    write_text create_completion json_loads print PROMPT self file_path
    temperature save_raw_text w = (Ok result, w') ->
  exists doc doc_text response d d' w0 w1 w2 w3,
    load_document file_path w0 = (Ok doc, w1)
    /\ ExtractorText.text_of_document doc = Ok doc_text
    /\ create_completion (ExtractorIO.api_key self)
         (ExtractorIO.request PROMPT self temperature doc_text) w2
       = (Ok response, w3)
    /\ json_loads (ExtractorIO.reply response) = Ok (VDict d)
    /\ result = VDict d'
    /\ lookup "_extraction_metadata" d'
       = Some (ExtractorIO.extraction_metadata path_name self file_path
                 temperature response)
    /\ (forall k, k <> "_extraction_metadata" -> lookup k d' = lookup k d)
    /\ stamped (path_name file_path) result.
Proof.
  intros H.
  pose proof (extract_structured_data_stamped _ _ _ _ _ _ _ _ _ _ _ _ _ _ _ _
                H) as Hst.
  apply extract_structured_data_result in H
    as (doc & doc_text & response & d & w0 & w1 & w2 & w3
        & Hd & Ht & Hc & Hj & ->).
  exists doc, doc_text, response, d. eexists. exists w0, w1, w2, w3.
  split; [exact Hd|]. split; [exact Ht|]. split; [exact Hc|].
  split; [exact Hj|]. split; [reflexivity|].
  split; [apply lookup_set_key|].
  split; [|exact Hst].
  intros k Hk. now apply lookup_set_key_other.
Qed.

Lemma structured_data_keeps_reply_witness :
  exists result d',
    sample_extract "1-Algebra-2023-Approved-Math-SOL.docx" tt = (Ok result, tt)
    /\ result = VDict d'
    /\ lookup "strands" d' = Some (VList [strand_of []])
    /\ stamped "1-Algebra-2023-Approved-Math-SOL.docx" result.
Proof.
  destruct (structured_data_keeps_reply unit (always sample_document)
              (fun p => p) (fun p => p) (fun _ _ => quiet tt)
              (fun _ _ => quiet (sample_response 7))
              sample_loads (fun _ => quiet tt) "prompt" sample_extractor
              "1-Algebra-2023-Approved-Math-SOL.docx" (VInt 0) false tt tt _
              eq_refl)
    as (doc & doc_text & response & d & d' & w0 & w1 & w2 & w3
        & _ & _ & Hc & Hj & Hr & _ & Hk & Hs).
  eexists _, d'. split; [reflexivity|]. split; [exact Hr|].
  split; [|exact Hs].
  rewrite Hk by discriminate.
  injection Hc as <- _. injection Hj as <-. reflexivity.
Defined.





(** X15: a file that fails does not stop the batch: what [extract_batch]
    raises was raised by making the output directory, by writing the
    summary, or by a [print]; never by loading a file, by the service, by
    decoding its reply or by writing the result of one file. *)
Theorem batch_raises_only_outside_loop (W : Type)
    (load_document : string -> M W Document)
    (path_name path_stem path_txt : string -> string)
    (path_join : string -> string -> string)
    (write_text : string -> string -> M W unit)
    (dump_json : string -> value -> M W unit)
    (mkdir : string -> M W unit)
    (create_completion :
       string -> ExtractorIO.Request -> M W ExtractorIO.Response)
    (json_loads : string -> result value)
    (float_add : value -> value -> result value)
    (print : ExtractorIO.Message -> M W unit) (PROMPT : string)
    (self : ExtractorIO.Extractor)
    (file_paths : list string) (output_dir : string) (save_raw_text : bool)
    (w w' : W) (e : exn) :
  ExtractorIO.extract_batch W load_document path_name path_stem path_txt
    path_join write_text dump_json mkdir create_completion json_loads
    float_add print PROMPT self file_paths output_dir save_raw_text w
  = (Raise e, w') ->
  mkdir output_dir w = (Raise e, w')
  \/ (exists summary w2,
        dump_json (path_join output_dir "all_structured_documents.json")
          summary w2 = (Raise e, w'))
  \/ (exists m w2, print m w2 = (Raise e, w')).
Proof.
  unfold ExtractorIO.extract_batch, ExtractorIO.batch_loop. intros H.
  apply bindM_raise in H as [H | ([] & w1 & _ & H)]; [now left|].
  do 2 (apply bindM_raise in H as [H | ([] & ? & _ & H)];
        [right; right; eauto|]).
  apply bindM_raise in H as [H | (st & w4 & _ & H)].
  - match type of H with
    | for_loop _ _ _ ?w0 = _ =>
        pose proof (batch_loop_cases W load_document path_name path_stem
                      path_txt path_join write_text dump_json
                      create_completion json_loads float_add print PROMPT
                      self (List.length file_paths) output_dir save_raw_text
                      file_paths 1
                      {| ExtractorIO.results := [];
                         ExtractorIO.successful := 0;
                         ExtractorIO.failed := 0;
                         ExtractorIO.batch_tokens := VInt 0 |} w0 0%Z
                      eq_refl) as Hc
    end.
    rewrite H in Hc. right. right. exact Hc.
  - apply bindM_raise in H as [H | ([] & w5 & _ & H)]; [right; left; eauto|].
    do 8 (apply bindM_raise in H as [H | ([] & ? & _ & H)];
          [right; right; eauto|]).
    discriminate H.
Qed.

Lemma batch_raises_only_outside_loop_witness :
  exists e,
    ExtractorIO.extract_batch unit (always sample_document)
      (fun p => p) (fun p => p) (fun p => p) (fun d n => d ++ "/" ++ n)
      (fun _ _ => quiet tt) (fun _ _ => quiet tt) readonly
      (fun _ _ => quiet (sample_response 7))
      sample_loads (fun _ _ => Raise TypeError) (fun _ => quiet tt) "prompt"
      sample_extractor ["a.docx"] "out" false tt = (Raise e, tt)
    /\ readonly "out" tt = (Raise e, tt).
Proof.
  exists ValueError. split; [reflexivity|].
  destruct (batch_raises_only_outside_loop unit (always sample_document)
              (fun p => p) (fun p => p) (fun p => p)
              (fun d n => d ++ "/" ++ n)
              (fun _ _ => quiet tt) (fun _ _ => quiet tt) readonly
              (fun _ _ => quiet (sample_response 7))
              sample_loads (fun _ _ => Raise TypeError) (fun _ => quiet tt)
              "prompt" sample_extractor ["a.docx"] "out" false tt tt
              ValueError eq_refl) as [H | [(s & w2 & H) | (m & w2 & H)]];
    [exact H | discriminate H | discriminate H].
Defined.

(* ================================================================== *)
(** * The listing of extract_docx.py *)

Section Listing.

Lemma enumerate_In {A} (l : list A) : forall n i x,
  In (i, x) (enumerate n l) <-> n <= i /\ nth_error l (i - n) = Some x.
Proof.
  induction l as [|y l IH]; intros n i x; cbn [enumerate].
  - split; [contradiction|]. intros [_ H]. now destruct (i - n).
  - cbn [In]. rewrite IH. split.
    + intros [[= <- <-] | [Hle Hn]].
      * rewrite Nat.sub_diag. split; [lia | reflexivity].
      * split; [lia|]. replace (i - n) with (S (i - S n)) by lia. exact Hn.
    + intros [Hle Hn]. destruct (Nat.eq_dec n i) as [<-|Hne].
      * rewrite Nat.sub_diag in Hn. injection Hn as <-. now left.
      * right. split; [lia|].
        replace (i - n) with (S (i - S n)) in Hn by lia. exact Hn.
Qed.

Lemma enumerate_length {A} (l : list A) n :
  List.length (enumerate n l) = List.length l.
Proof. revert n. induction l; intros n; cbn; auto. Qed.

Lemma listing_para_loop ips : forall output,
  fold_left ExtractDocx.para_step ips output
  = (output ++ map para_line (filter (fun ip => retained (snd ip)) ips))%list.
Proof.
  induction ips as [|[i p] ips IH]; intros output.
  - cbn. now rewrite app_nil_r.
  - cbn [fold_left filter snd]. unfold ExtractDocx.para_step at 2.
    unfold retained at 1. destruct (truthy (strip (para_text p)));
      rewrite IH; [|reflexivity].
    cbn [map]. now rewrite <- List.app_assoc.
Qed.

Lemma listing_row_loop irs : forall output,
  fold_left ExtractDocx.row_step irs output
  = (output ++ map row_line irs)%list.
Proof.
  induction irs as [|[i r] irs IH]; intros output.
  - cbn. now rewrite app_nil_r.
  - cbn [fold_left map]. unfold ExtractDocx.row_step at 2.
    rewrite IH. now rewrite <- List.app_assoc.
Qed.

Lemma listing_table_loop its : forall output,
  fold_left ExtractDocx.table_step its output
  = (output ++ flat_map table_lines its)%list.
Proof.
  induction its as [|[i t] its IH]; intros output.
  - cbn. now rewrite app_nil_r.
  - cbn [fold_left flat_map]. unfold ExtractDocx.table_step at 2.
    rewrite listing_row_loop, IH. unfold table_lines. cbn [fst snd].
    now rewrite <- !List.app_assoc.
Qed.

Lemma output_of_document_eq doc :
  ExtractDocx.output_of_document doc
  = (map para_line
       (filter (fun ip => retained (snd ip))
          (enumerate 0 (doc_paragraphs doc)))
     ++ tables_section (doc_tables doc))%list.
Proof.
  unfold ExtractDocx.output_of_document, tables_section.
  rewrite listing_para_loop. cbn [app].
  destruct (doc_tables doc) as [|t ts] eqn:E; [now rewrite app_nil_r|].
  rewrite listing_table_loop. now rewrite <- List.app_assoc.
Qed.

Lemma flat_map_length_sum {A B} (f : A -> list B) l :
  List.length (flat_map f l)
  = list_sum (map (fun x => List.length (f x)) l).
Proof.
  induction l as [|x l IH]; [reflexivity|].
  cbn [flat_map map list_sum fold_right]. rewrite length_app. now f_equal.
Qed.

Lemma enumerate_rows_sum (ts : list Table) : forall n,
  list_sum (map (fun it => List.length (table_lines it)) (enumerate n ts))
  = List.length ts
    + list_sum (map (fun t => List.length (rows t)) ts).
Proof.
  induction ts as [|t ts IH]; intros n; [reflexivity|].
  cbn [enumerate map list_sum fold_right List.length table_lines snd].
  fold (list_sum (map (fun it => List.length (table_lines it))
                    (enumerate (S n) ts))).
  fold (list_sum (map (fun t => List.length (rows t)) ts)).
  rewrite IH, length_map, enumerate_length. lia.
Qed.

End Listing.

(** X16: [extract_docx_content] lists the paragraphs whose text is not blank,
    in order, each on a line "[i] [style] text" where i is the place of the
    paragraph in the document, blank paragraphs counted; the lines of the
    tables follow. *)
Theorem listing_numbers_places (doc : Document) :
  ExtractDocx.content_of_document doc
  = join nl
      (map para_line
         (filter (fun ip => retained (snd ip))
            (enumerate 0 (doc_paragraphs doc)))
       ++ tables_section (doc_tables doc))%list
  /\ forall i para,
       In (i, para)
         (filter (fun ip => retained (snd ip))
            (enumerate 0 (doc_paragraphs doc)))
       <-> nth_error (doc_paragraphs doc) i = Some para
           /\ retained para = true.
Proof.
  split.
  - unfold ExtractDocx.content_of_document. now rewrite output_of_document_eq.
  - intros i para. rewrite filter_In, enumerate_In, Nat.sub_0_r. cbn [snd].
    split; [tauto|]. intros [H1 H2]. repeat split; auto; lia.
Qed.

Section LineFeeds.

Lemma line_feeds_append u v :
  line_feeds (u ++ v) = line_feeds u + line_feeds v.
Proof. apply count_char_append. Qed.

Lemma line_feeds_join sep l :
  line_feeds (join sep l)
  = list_sum (map line_feeds l) + pred (List.length l) * line_feeds sep.
Proof.
  induction l as [|p [|q l] IH];
    [reflexivity
    | cbn [join map list_sum fold_right List.length pred]; lia |].
  change (join sep (p :: q :: l)) with (p ++ sep ++ join sep (q :: l)).
  rewrite !line_feeds_append, IH. cbn [map list_sum fold_right List.length pred].
  fold (list_sum (map line_feeds l)). lia.
Qed.

Lemma digit_not_line_feed a : is_digit a = true -> Ascii.eqb a "010" = false.
Proof.
  intros H. destruct (Ascii.eqb_spec a "010") as [->|]; [|reflexivity].
  discriminate H.
Qed.

Lemma format_nat_digits n : all_chars is_digit (format_nat n) = true.
Proof.
  unfold format_nat, str_of_int. destruct (Z.of_nat n) as [|p|p] eqn:E;
    [reflexivity | | lia].
  cbn [Z.to_int NilZero.string_of_int]. unfold NilZero.string_of_uint.
  pose proof (numeral_digits (Pos.to_uint p)) as H.
  destruct (Pos.to_uint p); [reflexivity | exact H ..].
Qed.

Lemma line_feeds_format_nat n : line_feeds (format_nat n) = 0.
Proof.
  apply (count_char_none _ is_digit); [apply digit_not_line_feed|].
  apply format_nat_digits.
Qed.

Lemma list_sum_zero {A} (f : A -> nat) l :
  Forall (fun x => f x = 0) l -> list_sum (map f l) = 0.
Proof.
  induction 1 as [|x l Hx _ IH]; [reflexivity|].
  cbn [map list_sum fold_right]. fold (list_sum (map f l)). lia.
Qed.

Lemma list_sum_flat_map {A B} (f : B -> nat) (g : A -> list B) l :
  list_sum (map f (flat_map g l))
  = list_sum (map (fun x => list_sum (map f (g x))) l).
Proof.
  induction l as [|x l IH]; [reflexivity|].
  cbn [flat_map map list_sum fold_right].
  rewrite map_app, list_sum_app. now f_equal.
Qed.

Lemma enumerate_Forall {A} (P : A -> Prop) (l : list A) : forall n,
  Forall P l -> Forall (fun ix => P (snd ix)) (enumerate n l).
Proof.
  induction l as [|x l IH]; intros n H; cbn [enumerate]; [constructor|].
  inversion H; subst. constructor; auto.
Qed.

Lemma line_feeds_para_line ip :
  one_line (para_text (snd ip)) ->
  line_feeds (format_opt (ExtractorText.style_name_of (snd ip))) = 0 ->
  line_feeds (para_line ip) = 0.
Proof.
  unfold para_line, one_line. intros Ht Hs.
  rewrite !line_feeds_append, line_feeds_format_nat, Hs, Ht. reflexivity.
Qed.

Lemma line_feeds_row_line ir :
  Forall (fun cell => one_line (cell_text cell)) (cells (snd ir)) ->
  line_feeds (row_line ir) = 0.
Proof.
  unfold row_line, trimmed_row. intros H.
  rewrite !line_feeds_append, line_feeds_format_nat, line_feeds_join.
  rewrite map_map, list_sum_zero by exact H.
  cbn. lia.
Qed.

Lemma line_feeds_table_lines it :
  Forall (fun row => Forall (fun cell => one_line (cell_text cell))
                       (cells row)) (rows (snd it)) ->
  list_sum (map line_feeds (table_lines it)) = 1.
Proof.
  intros H. unfold table_lines. cbn [map list_sum fold_right].
  fold (list_sum (map line_feeds
                    (map row_line (enumerate 0 (rows (snd it)))))).
  rewrite map_map, list_sum_zero.
  - rewrite !line_feeds_append, line_feeds_format_nat. reflexivity.
  - apply (enumerate_Forall _ _ 0) in H. revert H. apply Forall_impl.
    intros ir. apply line_feeds_row_line.
Qed.

Lemma line_feeds_tables ts : forall n,
  Forall (fun table =>
            Forall (fun row => Forall (fun cell => one_line (cell_text cell))
                                 (cells row)) (rows table)) ts ->
  list_sum (map line_feeds (flat_map table_lines (enumerate n ts)))
  = List.length ts.
Proof.
  intros n H. rewrite list_sum_flat_map.
  revert n. induction H as [|t ts Ht _ IH]; intros n; [reflexivity|].
  cbn [enumerate map list_sum fold_right List.length].
  fold (list_sum (map (fun x => list_sum (map line_feeds (table_lines x)))
                    (enumerate (S n) ts))).
  rewrite IH, line_feeds_table_lines by exact Ht. reflexivity.
Qed.

Lemma retained_count (ps : list Paragraph) : forall n,
  List.length (filter (fun ip => retained (snd ip)) (enumerate n ps))
  = List.length (filter retained ps).
Proof.
  induction ps as [|p ps IH]; intros n; [reflexivity|].
  cbn [enumerate filter snd]. destruct (retained p); cbn [List.length];
    now rewrite IH.
Qed.

End LineFeeds.

(** X17: for a document whose paragraphs, names of styles and cells have no
    line feed inside, the string [extract_docx_content] returns has one line
    for each paragraph that is not blank and, when the document has tables,
    four lines for the heading of the tables, two for each table and one for
    each row, blank rows and empty tables too: no row is dropped.  Counted
    in line feeds, which stand between the lines. *)
Theorem listing_keeps_every_row (doc : Document) :
  single_lined doc ->
  line_feeds (ExtractDocx.content_of_document doc)
  = match doc_tables doc with
    | [] => pred (List.length (filter retained (doc_paragraphs doc)))
    | _ :: _ =>
        pred (List.length (filter retained (doc_paragraphs doc))
              + 4
              + 2 * List.length (doc_tables doc)
              + list_sum (map (fun t => List.length (rows t))
                            (doc_tables doc)))
    end.
Proof.
  intros [Hp Ht]. unfold ExtractDocx.content_of_document.
  rewrite output_of_document_eq, line_feeds_join, map_app, list_sum_app,
    length_app, length_map, retained_count.
  rewrite (list_sum_zero line_feeds).
  - unfold tables_section. destruct (doc_tables doc) as [|t ts] eqn:E.
    + cbn. lia.
    + rewrite <- E in *. cbn [map list_sum fold_right List.length].
      fold (list_sum (map line_feeds
                        (flat_map table_lines
                           (enumerate 0 (doc_tables doc))))).
      rewrite line_feeds_tables by exact Ht.
      rewrite flat_map_length_sum, enumerate_rows_sum.
      change (line_feeds (nl ++ nl ++ "=== TABLES ===" ++ nl)) with 3.
      change (line_feeds nl) with 1. lia.
  - apply Forall_map. apply incl_Forall with (l1 := enumerate 0 (doc_paragraphs doc)).
    + intros x Hx. now apply filter_In in Hx.
    + apply (enumerate_Forall _ _ 0) in Hp. revert Hp. apply Forall_impl.
      intros ip [H1 H2]. now apply line_feeds_para_line.
Qed.

Lemma listing_keeps_every_row_witness :
  single_lined sample_document
  /\ line_feeds (ExtractDocx.content_of_document sample_document) = 13.
Proof.
  assert (H : single_lined sample_document).
  { split; repeat constructor. }
  split; [exact H|].
  exact (listing_keeps_every_row sample_document H).
Defined.

(* ================================================================== *)
(** * Names of subject guides *)

Section SubjectGuides.

Lemma solid_subject_any S :
  solid_subject S -> all_chars (mem Dot) S = true.
Proof.
  intros [_ H]. revert H. apply all_chars_impl. intros a Ha. simpl.
  apply negb_true_iff in Ha. apply negb_true_iff.
  unfold is_space, is_newline, in_range in *. revert Ha.
  generalize (code a). intros n.
  rewrite !orb_false_iff, !andb_false_iff, !N.leb_gt, !N.eqb_neq. lia.
Qed.

Lemma solid_subject_head S rest :
  solid_subject S -> starts_in Space (S ++ rest) = false.
Proof.
  intros [Hne H]. destruct S as [|a S]; [congruence|]. simpl in *.
  apply andb_prop in H as [Ha _]. now apply negb_true_iff in Ha.
Qed.

Lemma solid_tail u v :
  all_chars (fun a => negb (is_space a)) (u ++ v) = true -> v <> "" ->
  exists a v', v = String a v' /\ is_space a = false.
Proof.
  rewrite all_chars_append. intros H Hv. apply andb_prop in H as [_ H].
  destruct v as [|a v']; [congruence|]. simpl in H.
  apply andb_prop in H as [H _]. apply negb_true_iff in H. eauto.
Qed.

(** Whitespace cannot begin at a character that is none. *)
Lemma run_plus_mismatch {A} c a s pos caps rs
    (k : nat -> string -> list string -> option A) :
  mem c a = false ->
  run (seq (plus c :: rs)) pos (String a s) caps k = None.
Proof.
  intros H. rewrite run_seq_cons. cbn [run plus]. rewrite rep_eq. cbv zeta.
  now rewrite H.
Qed.

Lemma subject_guide_pattern_groups N S :
  digits N -> solid_subject S ->
  re_match subject_guide_pattern (subject_guide_name_of N S) = Some [N; S].
Proof.
  intros [HN dN] HS. pose proof HS as [HSne HSc].
  unfold re_match, subject_guide_pattern, subject_guide_name_of.
  change (N ++ ". " ++ S ++ " Mathematics Instructional Guide.docx")
    with (N ++ "." ++ " " ++ S ++ " Mathematics Instructional Guide.docx").
  rewrite run_seq_cons.
  apply run_group_plus_max; [assumption | assumption | reflexivity |].
  rewrite run_seq_cons, run_lit.
  rewrite run_seq_cons.
  apply run_plus_max; [reflexivity | discriminate | |].
  { now apply solid_subject_head. }
  rewrite run_seq_cons.
  apply run_group_lazy; [now apply solid_subject_any | assumption | |].
  { intros u v cs E Hv. subst S.
    destruct (solid_tail u v HSc Hv) as (a & v' & -> & Ha).
    now apply run_plus_mismatch. }
  reflexivity.
Qed.

Lemma nonspace_not_space a : negb (is_space a) = false -> is_space a = true.
Proof. now destruct (is_space a). Qed.

Lemma guide_pattern_accepted f :
  prefix_accepted guide_pattern f ->
  exists d sp1 sp2 d2 tail,
    f = d ++ "." ++ sp1 ++ "Grade" ++ sp2 ++ d2 ++ tail
    /\ all_chars is_digit d = true
    /\ all_chars is_space sp1 = true
    /\ all_chars is_space sp2 = true /\ sp2 <> ""
    /\ all_chars is_digit d2 = true /\ d2 <> "".
Proof.
  intros (w & rest & caps & -> & M). unfold guide_pattern in M. read_pattern.
  flatten. do 5 eexists. split; [reflexivity|].
  repeat split; try assumption; now apply positive_length.
Qed.

(** [guide_pattern] wants a number after "Grade", where these names have
    "Mathematics". *)
Lemma guide_pattern_rejects_subject N S :
  digits N -> solid_subject S ->
  re_match guide_pattern (subject_guide_name_of N S) = None.
Proof.
  intros [HN dN] [HSne HSc].
  destruct (re_match guide_pattern _) eqn:E; [exfalso | reflexivity].
  apply found, guide_pattern_accepted in E
    as (d & sp1 & sp2 & d2 & tail & E & Hd & H1 & H2 & N2 & Hd2 & Nd2).
  unfold subject_guide_name_of in E. cbn [append] in E.
  apply (span_unique is_digit) in E as (_ & _ & E);
    [| assumption | assumption | reflexivity | reflexivity].
  destruct S as [|s0 S]; [congruence|]. simpl in HSc.
  apply andb_prop in HSc as [Hs0 HSc]. apply negb_true_iff in Hs0.
  change (String " " (String s0 S ++ " Mathematics Instructional Guide.docx"))
    with (" " ++ String s0 (S ++ " Mathematics Instructional Guide.docx"))
    in E.
  apply (span_unique is_space) in E as (_ & _ & E);
    [| reflexivity | assumption | assumption | reflexivity].
  destruct sp2 as [|c sp2]; [congruence|]. simpl in H2.
  apply andb_prop in H2 as [Hc H2].
  change (S ++ " Mathematics Instructional Guide.docx")
    with (S ++ String " " "Mathematics Instructional Guide.docx") in E.
  change (String "r" (String "a" (String "d" (String "e"
            (String c sp2 ++ d2 ++ tail)))))
    with ("rade" ++ String c (sp2 ++ d2 ++ tail)) in E.
  apply (span_unique (fun a => negb (is_space a))) in E as (_ & _ & E);
    [| assumption | reflexivity | reflexivity | now rewrite Hc].
  destruct d2 as [|e d2]; [congruence|]. simpl in Hd2.
  apply andb_prop in Hd2 as [He _].
  destruct sp2 as [|c' sp2]; simpl in E, H2.
  - injection E as <- _. discriminate He.
  - apply andb_prop in H2 as [Hc' _]. injection E as <- _. discriminate Hc'.
Qed.

End SubjectGuides.

(** X18: a filename "N. S Mathematics Instructional Guide.docx", with N a run
    of digits and S a subject of one word, is passed over by the first three
    patterns and classified as "Instructional Guide" with N and S as number
    and subject and the grade level that [_get_grade_level] gives, so that
    "Geometry" under number 3 is shown as "Grade 3". *)
Theorem subject_guide_name_classified (N S g : string) :
  digits N -> solid_subject S ->
  _get_grade_level N S = Ok g ->
  _parse_filename (subject_guide_name_of N S)
  = Ok [("type", "Instructional Guide");
        ("number", N);
        ("subject", S);
        ("grade_level", g)].
Proof.
  intros HN HS Hg. unfold _parse_filename.
  assert (E1 : re_match sol_pattern (subject_guide_name_of N S) = None).
  { destruct (re_match sol_pattern _) eqn:E; [exfalso | reflexivity].
    apply found in E. destruct HN as [_ dN].
    apply (number_then "-" "" _ N ".") in E; auto; discriminate. }
  assert (E3 : re_match understanding_pattern (subject_guide_name_of N S)
               = None).
  { destruct (re_match understanding_pattern _) eqn:E;
      [exfalso | reflexivity].
    apply found in E. destruct HN as [_ dN].
    apply (number_then "-" "" _ N ".") in E; auto; discriminate. }
  now rewrite E1, (guide_pattern_rejects_subject N S HN HS), E3,
    (subject_guide_pattern_groups N S HN HS), Hg.
Qed.

Lemma subject_guide_name_classified_witness :
  _parse_filename (subject_guide_name_of "3" "Geometry")
  = Ok [("type", "Instructional Guide");
        ("number", "3");
        ("subject", "Geometry");
        ("grade_level", "Grade 3")].
Proof.
  apply (subject_guide_name_classified "3" "Geometry" "Grade 3");
    try (split; [discriminate | reflexivity]); reflexivity.
Defined.
